(** * Z-DMR: the UI shell's view of the download engine

    A shallow embedding of [src/types.ts] (the records exchanged with the
    core) and of [App.tsx] (URL-list parsing, the progress map, the status
    bar, the context menu and the settings editor), with the properties the
    specification states about them.

    Conventions.
    - A JavaScript string is the list of its UTF-16 code units.
    - A JavaScript number that holds a byte count is an integer of [Z];
      quotients are rationals of [Q]. Both are exact where IEEE doubles
      are (magnitudes up to 2^53).
    - A number read by [parseInt], and the bandwidth limit computed from
      it, is a [JsNumber]: an integer that is a double, an infinity or
      [NaN]; [to_double] rounds an integer to the nearest double.
    - [null]/[undefined] are [None]; [a ?? b] is a match on the option.
    - A plain object used as a dictionary ([Record<string, T>]) is a
      [gmap] keyed by strings.
    - A [throw] is the [Throw] completion; [try]/[catch] is [try_catch]. *)

From Stdlib Require Import ZArith QArith Qminmax Lia String Ascii.
From Stdlib Require Import DecimalPos DecimalN Qround Lqa.
From stdpp Require Import base decidable option list gmap.

Local Open Scope Z_scope.

(* ===================================================================== *)
(** ** JavaScript strings                                                 *)
(* ===================================================================== *)

Abbreviation code_unit := N (only parsing).
Abbreviation jsstring := (list N) (only parsing).

(** The code units of an ASCII literal of the source. *)
Definition js (s : String.string) : jsstring :=
  List.map N_of_ascii (list_ascii_of_string s).

(** [WhiteSpace] and [LineTerminator] of ECMAScript: what [\s] matches and
    what [String.prototype.trim] strips. *)
Definition is_js_whitespace (c : N) : bool :=
  ((9 <=? c) && (c <=? 13) || (c =? 32) || (c =? 160) || (c =? 5760)
   || (8192 <=? c) && (c <=? 8202) || (c =? 8232) || (c =? 8233)
   || (c =? 8239) || (c =? 8287) || (c =? 12288) || (c =? 65279))%N.

(** [s.split(/\s+/)]: the pieces between maximal runs of whitespace; a
    leading or trailing run leaves an empty piece, and the empty string
    splits into one empty piece. [in_sep] says that the previous code
    unit belonged to a separator, [cur] is the piece being read. *)
Fixpoint split_ws_from (in_sep : bool) (cur s : jsstring) : list jsstring :=
  match s with
  | [] => [cur]
  | c :: r =>
      if is_js_whitespace c
      then (if in_sep then split_ws_from true [] r
            else cur :: split_ws_from true [] r)
      else split_ws_from false (cur ++ [c]) r
  end.

Definition split_ws (s : jsstring) : list jsstring := split_ws_from false [] s.

Fixpoint trim_start (s : jsstring) : jsstring :=
  match s with
  | c :: r => if is_js_whitespace c then trim_start r else s
  | [] => []
  end.

(** [s.trim()] *)
Definition trim (s : jsstring) : jsstring :=
  rev (trim_start (rev (trim_start s))).

(** [Boolean(s)] on a string: the empty string is the only falsy one. *)
Definition Boolean (s : jsstring) : bool :=
  match s with [] => false | _ => true end.

(** [s.includes(t)] *)
Fixpoint starts_with (t s : jsstring) : bool :=
  match t, s with
  | [], _ => true
  | a :: t', b :: s' => (a =? b)%N && starts_with t' s'
  | _ :: _, [] => false
  end.

Fixpoint includes (s t : jsstring) : bool :=
  starts_with t s || match s with [] => false | _ :: r => includes r t end.

(** [s.replace(/\r/g, '\n')] *)
Definition replace_cr_by_lf (s : jsstring) : jsstring :=
  List.map (fun c => if (c =? 13)%N then 10%N else c) s.

(* ===================================================================== *)
(** ** Completions: values and exceptions                                 *)
(* ===================================================================== *)

Inductive JsError := TypeError.

Inductive completion (A : Type) :=
  | Normal (a : A)
  | Throw (e : JsError).
Arguments Normal {A} a.
Arguments Throw {A} e.

Definition cbind {A B} (m : completion A) (k : A -> completion B) : completion B :=
  match m with Normal a => k a | Throw e => Throw e end.

Definition try_catch {A} (m : completion A) (handler : JsError -> completion A)
  : completion A :=
  match m with Normal a => Normal a | Throw e => handler e end.

Notation "'let!' x ':=' m 'in' k" := (cbind m (fun x => k))
  (at level 10, x name, m at level 100, k at level 200).

(** [for (const x of l) body]: the loop stops at the first throw. *)
Fixpoint for_of {A S} (l : list A) (body : A -> S -> completion S) (s : S)
  : completion S :=
  match l with
  | [] => Normal s
  | x :: r => let! s' := body x s in for_of r body s'
  end.

(* ===================================================================== *)
(** ** [Set] of strings, in insertion order                               *)
(* ===================================================================== *)

(** [set.add(x)]: a value already present keeps its place. *)
Definition Set_add (s : list jsstring) (x : jsstring) : list jsstring :=
  if bool_decide (x ∈ s) then s else s ++ [x].

(** [new Set(l)] adds the elements of [l] from left to right. *)
Definition new_Set (l : list jsstring) : list jsstring := foldl Set_add [] l.

(** [Array.from(set)] lists the set in insertion order. *)
Definition Array_from (s : list jsstring) : list jsstring := s.

(* ===================================================================== *)
(** ** [types.ts]                                                         *)
(* ===================================================================== *)

Inductive DownloadStatus := QUEUED | DOWNLOADING | PAUSED | COMPLETED | ERROR.

Inductive ErrorCode :=
  | DNS_FAIL | CONNECT_FAIL | TLS_FAIL | HTTP_4XX | HTTP_5XX | TIMEOUT
  | RANGE_UNSUPPORTED | DISK_FULL | REMOTE_CHANGED | PERMISSION_DENIED
  | CANCELLED | INVALID_URL | UNKNOWN.

#[global] Instance DownloadStatus_eq_dec : EqDecision DownloadStatus.
Proof. solve_decision. Defined.
#[global] Instance ErrorCode_eq_dec : EqDecision ErrorCode.
Proof. solve_decision. Defined.

(** The string each member of the union type is. *)
Definition DownloadStatus_string (s : DownloadStatus) : jsstring :=
  match s with
  | QUEUED => js "QUEUED" | DOWNLOADING => js "DOWNLOADING"
  | PAUSED => js "PAUSED" | COMPLETED => js "COMPLETED" | ERROR => js "ERROR"
  end.

Definition ErrorCode_string (c : ErrorCode) : jsstring :=
  match c with
  | DNS_FAIL => js "DNS_FAIL" | CONNECT_FAIL => js "CONNECT_FAIL"
  | TLS_FAIL => js "TLS_FAIL" | HTTP_4XX => js "HTTP_4XX"
  | HTTP_5XX => js "HTTP_5XX" | TIMEOUT => js "TIMEOUT"
  | RANGE_UNSUPPORTED => js "RANGE_UNSUPPORTED" | DISK_FULL => js "DISK_FULL"
  | REMOTE_CHANGED => js "REMOTE_CHANGED"
  | PERMISSION_DENIED => js "PERMISSION_DENIED"
  | CANCELLED => js "CANCELLED" | INVALID_URL => js "INVALID_URL"
  | UNKNOWN => js "UNKNOWN"
  end.

(** The members of [ErrorCode], in the order of the declaration. *)
Definition ErrorCode_members : list ErrorCode :=
  [ DNS_FAIL; CONNECT_FAIL; TLS_FAIL; HTTP_4XX; HTTP_5XX; TIMEOUT;
    RANGE_UNSUPPORTED; DISK_FULL; REMOTE_CHANGED; PERMISSION_DENIED;
    CANCELLED; INVALID_URL; UNKNOWN ].

Record DownloadRecord := {
  id : jsstring;
  created_at : jsstring;
  updated_at : jsstring;
  started_at : option jsstring;
  completed_at : option jsstring;
  forced_proxy : bool;
  forced_proxy_url : option jsstring;
  original_url : jsstring;
  resolved_url : option jsstring;
  dest_dir : jsstring;
  final_filename : option jsstring;
  temp_path : option jsstring;
  status : DownloadStatus;
  error_code : option ErrorCode;
  error_message : option jsstring;
  content_length : option Z;
  etag : option jsstring;
  last_modified : option jsstring;
  bytes_downloaded : Z;
  supports_ranges : option bool;
  mirror_used : option jsstring;
  batch_id : option jsstring
}.

Record DownloadProgressUpdate := {
  p_id : jsstring;
  p_status : DownloadStatus;
  p_bytes_downloaded : Z;
  p_content_length : option Z;
  p_speed_bps : Q;
  p_eta_seconds : option Q;
  p_error_code : option ErrorCode;
  p_error_message : option jsstring;
  p_updated_at : jsstring
}.

(** A number that holds an integer, or what [parseInt] and arithmetic on
    integers can give in its place: an infinity or [NaN]. *)
Inductive JsNumber := Fin (z : Z) | PosInfinity | NegInfinity | NaN.

(** The settings object as [types.ts] declares it. *)
Inductive Theme := dark | mirage | light.

Record SettingsSnapshot := {
  default_download_dir : jsstring;
  bandwidth_limit_bps : option JsNumber;
  minimize_to_tray : bool;
  theme : Theme;
  global_proxy_enabled : bool;
  global_proxy_url : option jsstring;
  local_api_port : Z
}.

(** A plain JavaScript value, as far as a settings object holds one. *)
Inductive JsValue :=
  | JNull
  | JBool (b : bool)
  | JNum (n : JsNumber)
  | JStr (s : jsstring).

Definition Theme_string (t : Theme) : jsstring :=
  match t with dark => js "dark" | mirage => js "mirage" | light => js "light" end.

Definition nullable {A} (f : A -> JsValue) (o : option A) : JsValue :=
  match o with Some a => f a | None => JNull end.

(** The own properties of a [SettingsSnapshot] object, in the order of the
    interface declaration ([types.ts], lines 55-63). *)
Definition SettingsSnapshot_entries (s : SettingsSnapshot)
  : list (jsstring * JsValue) :=
  [ (js "default_download_dir", JStr (default_download_dir s));
    (js "bandwidth_limit_bps", nullable JNum (bandwidth_limit_bps s));
    (js "minimize_to_tray", JBool (minimize_to_tray s));
    (js "theme", JStr (Theme_string (theme s)));
    (js "global_proxy_enabled", JBool (global_proxy_enabled s));
    (js "global_proxy_url", nullable JStr (global_proxy_url s));
    (js "local_api_port", JNum (Fin (local_api_port s))) ].

Definition SettingsSnapshot_keys (s : SettingsSnapshot) : list jsstring :=
  (SettingsSnapshot_entries s).*1.

(* ===================================================================== *)
(** ** [App.tsx]: URL lists                                               *)
(* ===================================================================== *)

Definition EVENT_PROGRESS_BATCH : jsstring := js "zdmr://progress_batch".
Definition EVENT_DOWNLOADS_CHANGED : jsstring := js "zdmr://downloads_changed".

(** What the source reads of a [URL] object: [u.protocol] and
    [u.toString()] (the serialised, normalised URL). *)
Record URL := {
  protocol : jsstring;
  toString : jsstring
}.

Section UrlList.
(** [new URL(p)] of the host platform: a [URL], or a thrown [TypeError]. *)
Variable new_URL : jsstring -> completion URL.

Definition parts (text : jsstring) : list jsstring :=
  List.filter Boolean (List.map trim (split_ws text)).

(** The body of the loop of [parseUrlsFromText]. *)
Definition push_if_http (p : jsstring) (out : list jsstring)
  : completion (list jsstring) :=
  try_catch
    (let! u := new_URL p in
     if bool_decide (protocol u = js "http:")
        || bool_decide (protocol u = js "https:")
     then Normal (out ++ [toString u])
     else Normal out)
    (fun _ => Normal out).

(** The array [out] at the end of the loop. *)
Definition collected (text : jsstring) : completion (list jsstring) :=
  for_of (parts text) push_if_http [].

Definition parseUrlsFromText (text : jsstring) : completion (list jsstring) :=
  let! out := collected text in
  Normal (Array_from (new_Set out)).

(** The [Start] button of [BatchModal]: the URLs handed to [onStart], or
    [None] when the handler returns without starting. *)
Definition BatchModal_start (text : jsstring)
  : completion (option (list jsstring)) :=
  let! l := parseUrlsFromText (replace_cr_by_lf text) in
  let urls := List.filter (fun u => includes u (js "://")) l in
  Normal (if (length urls =? 0)%nat then None else Some urls).
End UrlList.

(* ===================================================================== *)
(** ** [App.tsx]: downloads and live progress                             *)
(* ===================================================================== *)


Record AppState := {
  downloads : list DownloadRecord;
  progressById : gmap (list N) DownloadProgressUpdate
}.

(** The test of the filter in [refreshDownloads]. *)
Definition active_status (d : DownloadRecord) : bool :=
  bool_decide (status d = DOWNLOADING) || bool_decide (status d = QUEUED).

(** The set [active] of [refreshDownloads]. *)
Definition active_ids (lst : list DownloadRecord) : gset (list N) :=
  list_to_set (List.map id (List.filter active_status lst)).

(** [refreshDownloads], given the answer [lst] of [cmd_list_downloads]
    (the source's [list]). *)
Definition refreshDownloads (lst : list DownloadRecord) (st : AppState)
  : AppState :=
  let active := active_ids lst in
  {| downloads := lst;
     progressById :=
       map_fold (fun id v next =>
                   if bool_decide (id ∈ active) then <[id := v]> next else next)
                ∅ (progressById st) |}.

(** The listener of [EVENT_PROGRESS_BATCH]; [payload] is [e.payload]. *)
Definition on_progress_batch (payload : option (list DownloadProgressUpdate))
    (st : AppState) : AppState :=
  let batch := default [] payload in
  if (length batch =? 0)%nat then st
  else {| downloads := downloads st;
          progressById :=
            foldl (fun next u => <[p_id u := u]> next) (progressById st) batch |}.

(** The listener of [EVENT_DOWNLOADS_CHANGED]. *)
Definition on_downloads_changed (lst : list DownloadRecord) (st : AppState)
  : AppState :=
  refreshDownloads lst st.

(** An event of the core: its channel and its payload. *)
Record Event := {
  channel : jsstring;
  payload : option (list DownloadProgressUpdate)
}.

(** The [listen] calls of [App]: one listener per subscribed channel. *)
Definition listeners
  : list (jsstring * (Event -> list DownloadRecord -> AppState -> AppState)) :=
  [ (EVENT_PROGRESS_BATCH, fun e _ st => on_progress_batch (payload e) st);
    (EVENT_DOWNLOADS_CHANGED, fun _ store st => on_downloads_changed store st) ].

(** Delivery of an event: every listener of its channel runs. [store] is
    what [cmd_list_downloads] answers when a listener asks. *)
Definition deliver (e : Event) (store : list DownloadRecord) (st : AppState)
  : AppState :=
  foldl (fun st l => if bool_decide (l.1 = channel e) then l.2 e store st else st)
        st listeners.

(** One element of [rows]. *)
Record Row := {
  row_d : DownloadRecord;
  row_p : option DownloadProgressUpdate;
  row_bytes : Z;
  row_total : option Z;
  row_pct : Q
}.

(** [total && total > 0 ? Math.min(1, Math.max(0, bytes / total)) : 0] *)
Definition pct_of (bytes : Z) (total : option Z) : Q :=
  match total with
  | Some t =>
      if negb (t =? 0) && (0 <? t)
      then Qmin 1 (Qmax 0 (inject_Z bytes / inject_Z t))
      else 0%Q
  | None => 0%Q
  end.

Definition row_of (progress : gmap (list N) DownloadProgressUpdate)
    (d : DownloadRecord) : Row :=
  let p := progress !! id d in
  let bytes :=
    match p with Some u => p_bytes_downloaded u | None => bytes_downloaded d end in
  let total :=
    match p with
    | Some u =>
        match p_content_length u with
        | Some n => Some n
        | None => content_length d
        end
    | None => content_length d
    end in
  {| row_d := d; row_p := p; row_bytes := bytes; row_total := total;
     row_pct := pct_of bytes total |}.

Definition rows (st : AppState) : list Row :=
  List.map (row_of (progressById st)) (downloads st).

(** Inside [rows.map]: [p?.status ?? d.status]. *)
Definition row_status (r : Row) : DownloadStatus :=
  match row_p r with Some u => p_status u | None => status (row_d r) end.

(** [p?.error_message ?? d.error_message] *)
Definition row_err (r : Row) : option jsstring :=
  match row_p r with
  | Some u =>
      match p_error_message u with
      | Some m => Some m
      | None => error_message (row_d r)
      end
  | None => error_message (row_d r)
  end.


(** The text of the status cell:
    [status === 'ERROR' ? err ?? 'Error' : status]. *)
Definition status_cell (r : Row) : jsstring :=
  if bool_decide (row_status r = ERROR)
  then default (js "Error") (row_err r)
  else DownloadStatus_string (row_status r).

(** The object [counts] of [statusSummary]. *)
Record Counts := {
  n_QUEUED : nat;
  n_DOWNLOADING : nat;
  n_PAUSED : nat;
  n_COMPLETED : nat;
  n_ERROR : nat
}.

(** [counts[s]++] *)
Definition incr (c : Counts) (s : DownloadStatus) : Counts :=
  match s with
  | QUEUED =>
      {| n_QUEUED := S (n_QUEUED c); n_DOWNLOADING := n_DOWNLOADING c;
         n_PAUSED := n_PAUSED c; n_COMPLETED := n_COMPLETED c;
         n_ERROR := n_ERROR c |}
  | DOWNLOADING =>
      {| n_QUEUED := n_QUEUED c; n_DOWNLOADING := S (n_DOWNLOADING c);
         n_PAUSED := n_PAUSED c; n_COMPLETED := n_COMPLETED c;
         n_ERROR := n_ERROR c |}
  | PAUSED =>
      {| n_QUEUED := n_QUEUED c; n_DOWNLOADING := n_DOWNLOADING c;
         n_PAUSED := S (n_PAUSED c); n_COMPLETED := n_COMPLETED c;
         n_ERROR := n_ERROR c |}
  | COMPLETED =>
      {| n_QUEUED := n_QUEUED c; n_DOWNLOADING := n_DOWNLOADING c;
         n_PAUSED := n_PAUSED c; n_COMPLETED := S (n_COMPLETED c);
         n_ERROR := n_ERROR c |}
  | ERROR =>
      {| n_QUEUED := n_QUEUED c; n_DOWNLOADING := n_DOWNLOADING c;
         n_PAUSED := n_PAUSED c; n_COMPLETED := n_COMPLETED c;
         n_ERROR := S (n_ERROR c) |}
  end.

Definition no_counts : Counts :=
  {| n_QUEUED := 0; n_DOWNLOADING := 0; n_PAUSED := 0; n_COMPLETED := 0;
     n_ERROR := 0 |}.

Record StatusSummary := {
  counts : Counts;
  totalBps : Q
}.

Definition statusSummary (st : AppState) : StatusSummary :=
  {| counts := foldl (fun c d => incr c (status d)) no_counts (downloads st);
     totalBps :=
       foldl (fun t d =>
                match progressById st !! id d with
                | None => t
                | Some u =>
                    if bool_decide (p_status u = DOWNLOADING)
                    then (t + p_speed_bps u)%Q else t
                end)
             0%Q (downloads st) |}.

(* ===================================================================== *)
(** ** [App.tsx]: the context menu                                        *)
(* ===================================================================== *)

(** The element [#ctx]: its inline style and its [dataset]. A data
    attribute that was never set reads as [undefined]. *)
Record CtxMenu := {
  style_left_px : option Z;
  style_top_px : option Z;
  style_display : jsstring;
  dataset_id : option jsstring;
  dataset_url : option jsstring;
  dataset_dest : option jsstring;
  dataset_status : option jsstring
}.


(** [menu] is [document.getElementById('ctx')]. *)
Definition showContextMenu (x y : Z) (d : DownloadRecord) (status : jsstring)
    (menu : option CtxMenu) : option CtxMenu :=
  match menu with
  | None => None
  | Some _ =>
      Some {| style_left_px := Some x; style_top_px := Some y;
              style_display := js "block";
              dataset_id := Some (id d);
              dataset_url :=
                Some (match resolved_url d with
                      | Some u => u
                      | None => original_url d
                      end);
              dataset_dest := Some (dest_dir d);
              dataset_status := Some status |}
  end.

Definition hideContextMenu (menu : option CtxMenu) : option CtxMenu :=
  match menu with
  | None => None
  | Some m =>
      Some {| style_left_px := style_left_px m; style_top_px := style_top_px m;
              style_display := js "none";
              dataset_id := dataset_id m; dataset_url := dataset_url m;
              dataset_dest := dataset_dest m;
              dataset_status := dataset_status m |}
  end.

(** The commands of the core that the menu invokes, with their arguments. *)
Inductive Command :=
  | cmd_open_download_folder (dest_dir : option jsstring)
  | cmd_resume_download (id : option jsstring)
  | cmd_pause_download (id : option jsstring)
  | cmd_retry_download (id : option jsstring)
  | cmd_delete_download (id : option jsstring)
  | cmd_add_domain_to_proxy_and_retry (download_id url : option jsstring).

(** [onContextMenu] of a row. *)
Definition row_onContextMenu (x y : Z) (r : Row) (menu : option CtxMenu)
  : option CtxMenu :=
  showContextMenu x y (row_d r) (DownloadStatus_string (row_status r)) menu.

(** [onClick] of the button "Pause / Resume": the command invoked and the
    menu afterwards. The button is part of [el], so [el] exists. *)
Definition pause_resume_onClick (el : CtxMenu) : Command * option CtxMenu :=
  let id := dataset_id el in
  let status := dataset_status el in
  (if bool_decide (status = Some (js "PAUSED"))
   then cmd_resume_download id
   else cmd_pause_download id,
   hideContextMenu (Some el)).

(* ===================================================================== *)
(** ** [parseInt(s, 10)] and the decimal numeral of an integer            *)
(* ===================================================================== *)

Definition is_digit (c : N) : bool := ((48 <=? c) && (c <=? 57))%N.

Definition digit_value (c : N) : Z := Z.of_N c - 48.

(** The value of the longest prefix of decimal digits, after [acc]. *)
Fixpoint parse_digits (acc : Z) (s : jsstring) : Z :=
  match s with
  | c :: r => if is_digit c then parse_digits (10 * acc + digit_value c) r else acc
  | [] => acc
  end.

(** The double nearest to the integer [x >= 0], a tie going to the even
    significand, before any overflow: every integer below [2^53] is a
    double, and for [2^e <= x < 2^(e+1)] from there on the doubles are the
    multiples of [2^(e-52)]. *)
Definition nearest_double (x : Z) : Z :=
  if x <? 2 ^ 53 then x
  else
    let ulp := 2 ^ (Z.log2 x - 52) in
    let q := x / ulp in
    let r := x mod ulp in
    if 2 * r <? ulp then q * ulp
    else if ulp <? 2 * r then (q + 1) * ulp
    else if Z.even q then q * ulp else (q + 1) * ulp.

(** The number an integer becomes: the nearest double, and an infinity
    when that is [2^1024] or more. *)
Definition to_double (z : Z) : JsNumber :=
  let m := nearest_double (Z.abs z) in
  if 2 ^ 1024 <=? m then (if z <? 0 then NegInfinity else PosInfinity)
  else Fin (Z.sgn z * m).

(** [parseInt(s, 10)]: leading whitespace is skipped, one sign is read,
    then the longest prefix of digits, whose signed value is returned as a
    number; without a digit the result is [NaN]. (An implementation may
    zero the digits after the twentieth before it rounds; the engines
    round the value itself, as here, and up to twenty digits there is no
    choice.) *)
Definition parseInt10 (s : jsstring) : JsNumber :=
  let s1 := trim_start s in
  let '(sign, s2) :=
    match s1 with
    | 45%N :: r => (-1, r)
    | 43%N :: r => (1, r)
    | _ => (1, s1)
    end in
  match s2 with
  | c :: r => if is_digit c then to_double (sign * parse_digits (digit_value c) r) else NaN
  | [] => NaN
  end.

Fixpoint uint_units (d : Decimal.uint) : jsstring :=
  match d with
  | Decimal.Nil => []
  | Decimal.D0 r => 48%N :: uint_units r
  | Decimal.D1 r => 49%N :: uint_units r
  | Decimal.D2 r => 50%N :: uint_units r
  | Decimal.D3 r => 51%N :: uint_units r
  | Decimal.D4 r => 52%N :: uint_units r
  | Decimal.D5 r => 53%N :: uint_units r
  | Decimal.D6 r => 54%N :: uint_units r
  | Decimal.D7 r => 55%N :: uint_units r
  | Decimal.D8 r => 56%N :: uint_units r
  | Decimal.D9 r => 57%N :: uint_units r
  end.

(** The decimal numeral of an integer, as a user types it and as
    [String(k)] prints it: no leading zero, [-] for a negative one. *)
Definition decimal (k : Z) : jsstring :=
  if k <? 0 then 45%N :: uint_units (N.to_uint (Z.to_N (- k)))
  else uint_units (N.to_uint (Z.to_N k)).

(* ===================================================================== *)
(** ** [App.tsx]: the settings editor                                     *)
(* ===================================================================== *)

(** The controls of [SettingsModal] that are bound to the settings object
    [s], in the order of the form. *)
Inductive SettingsControl :=
  | DefaultDownloadFolder
  | GlobalBandwidthLimit
  | MinimizeToTray
  | ThemeSelect
  | SkinSelect
  | GlobalHotkey
  | GlobalProxyEnable
  | GlobalProxyUrl.

(** The property of [s] a control shows and, on change, overwrites. *)
Definition control_key (c : SettingsControl) : jsstring :=
  match c with
  | DefaultDownloadFolder => js "default_download_dir"
  | GlobalBandwidthLimit => js "bandwidth_limit_bps"
  | MinimizeToTray => js "minimize_to_tray"
  | ThemeSelect => js "theme"
  | SkinSelect => js "skin"
  | GlobalHotkey => js "global_hotkey"
  | GlobalProxyEnable => js "global_proxy_enabled"
  | GlobalProxyUrl => js "global_proxy_url"
  end.

Definition SettingsModal_controls : list SettingsControl :=
  [ DefaultDownloadFolder; GlobalBandwidthLimit; MinimizeToTray; ThemeSelect;
    SkinSelect; GlobalHotkey; GlobalProxyEnable; GlobalProxyUrl ].

Definition SettingsModal_keys : list jsstring :=
  control_key <$> SettingsModal_controls.

(** [value] of the bandwidth input:
    [Math.floor((s.bandwidth_limit_bps ?? 0) / 1024)]. Dividing a double
    by 1024 is exact, and so is the floor. *)
Definition bandwidth_input_value (s : SettingsSnapshot) : JsNumber :=
  match default (Fin 0) (bandwidth_limit_bps s) with
  | Fin b => Fin (b / 1024)
  | PosInfinity => PosInfinity
  | NegInfinity => NegInfinity
  | NaN => NaN
  end.

(** [kb > 0 ? kb * 1024 : null]. The product of a double and 1024 is
    exact, short of the overflow to infinity. *)
Definition limit_of_kb (kb : JsNumber) : option JsNumber :=
  match kb with
  | Fin k =>
      if 0 <? k
      then Some (if 2 ^ 1024 <=? k * 1024 then PosInfinity else Fin (k * 1024))
      else None
  | PosInfinity => Some PosInfinity
  | NegInfinity => None
  | NaN => None
  end.

(** [onChange] of the bandwidth input; [value] is [e.target.value]. *)
Definition bandwidth_onChange (value : jsstring) (s : SettingsSnapshot)
  : SettingsSnapshot :=
  let kb := parseInt10 (if Boolean value then value else js "0") in
  {| default_download_dir := default_download_dir s;
     bandwidth_limit_bps := limit_of_kb kb;
     minimize_to_tray := minimize_to_tray s;
     theme := theme s;
     global_proxy_enabled := global_proxy_enabled s;
     global_proxy_url := global_proxy_url s;
     local_api_port := local_api_port s |}.

(* ===================================================================== *)
(** ** A core to run the menu against                                     *)
(* ===================================================================== *)


(** Sample data for the closed instances below. *)
Definition sample_download (i : jsstring) (s : DownloadStatus) : DownloadRecord :=
  {| id := i; created_at := js "2025-12-25T10:00:00Z";
     updated_at := js "2025-12-25T10:05:00Z";
     started_at := Some (js "2025-12-25T10:00:01Z"); completed_at := None;
     forced_proxy := false; forced_proxy_url := None;
     original_url := js "https://example.com/a.bin"; resolved_url := None;
     dest_dir := js "C:/Downloads"; final_filename := Some (js "a.bin");
     temp_path := None; status := s; error_code := None;
     error_message := None; content_length := Some 1000; etag := None;
     last_modified := None; bytes_downloaded := 1000;
     supports_ranges := Some true; mirror_used := None; batch_id := None |}.

Definition sample_update (i : jsstring) (s : DownloadStatus) (n : Z)
  : DownloadProgressUpdate :=
  {| p_id := i; p_status := s; p_bytes_downloaded := n;
     p_content_length := Some 1000; p_speed_bps := 512%Q;
     p_eta_seconds := None; p_error_code := None; p_error_message := None;
     p_updated_at := js "2025-12-25T10:04:59Z" |}.

Definition sample_settings : SettingsSnapshot :=
  {| default_download_dir := js "C:/Downloads"; bandwidth_limit_bps := None;
     minimize_to_tray := true; theme := dark; global_proxy_enabled := false;
     global_proxy_url := None; local_api_port := 17890 |}.

(** A stand-in for [new URL]: it accepts what starts with a scheme of the
    table and serialises the scheme in lower case. *)
Definition sample_new_URL (p : jsstring) : completion URL :=
  if starts_with (js "http://") p then
    Normal {| protocol := js "http:"; toString := p |}
  else if starts_with (js "HTTP://") p then
    Normal {| protocol := js "http:"; toString := js "http://" ++ drop 7 p |}
  else if starts_with (js "https://") p then
    Normal {| protocol := js "https:"; toString := p |}
  else if starts_with (js "ftp://") p then
    Normal {| protocol := js "ftp:"; toString := p |}
  else Throw TypeError.

(* ===================================================================== *)
(** ** [App.tsx]: formatting                                              *)
(* ===================================================================== *)

(** The numbers these functions receive are finite (they come from JSON
    and from differences of finite numbers), so a number is a rational and
    [Number.isFinite] holds. Division by 1024 is exact on doubles, which
    makes the rational the very value the code holds. A whole number in a
    template literal prints as its decimal numeral ([decimal]), as it does
    below [10^21]. *)

(** The literal the source file has between the quotes where a dash is
    meant (three code units, as the file is encoded). *)
Definition DASH : jsstring := [8218; 196; 238]%N.

(** The integer nearest to [q], the larger one on a tie (for [0 <= q]). *)
Definition nearest (q : Q) : Z := Qfloor (q + (1 # 2)).

(** [x.toFixed(f)] for [f] 0 or 1 and [|x| < 10^21]: the sign, then the
    integer nearest to [|x| * 10^f] with a point before its last [f]
    digits. *)
Definition toFixed (f : nat) (x : Q) : jsstring :=
  let s := if negb (Qle_bool 0 x) then js "-" else [] in
  let x := if negb (Qle_bool 0 x) then (- x)%Q else x in
  match f with
  | O => s ++ decimal (nearest x)
  | _ => let n := nearest (x * 10) in
         s ++ decimal (n / 10) ++ js "." ++ decimal (n mod 10)
  end.

Definition units : list jsstring := [js "B"; js "KB"; js "MB"; js "GB"; js "TB"].

(** [while (v >= 1024 && i < units.length - 1) { v /= 1024; i++ }], run
    for at most [fuel] turns. *)
Fixpoint scale_loop (fuel : nat) (v : Q) (i : nat) : Q * nat :=
  match fuel with
  | O => (v, i)
  | S fuel' =>
      if Qle_bool 1024 v && (i <? length units - 1)%nat
      then scale_loop fuel' (v / 1024) (S i)
      else (v, i)
  end.

(** [formatBytes]. The loop starts at [i = 0] and counts [i] up to at most
    [units.length - 1], so [length units] turns are enough
    ([scale_loop_exit] below). *)
Definition formatBytes (n : Q) : jsstring :=
  if negb (Qle_bool 0 n) then js "0 B"
  else
    let '(v, i) := scale_loop (length units) n 0 in
    toFixed (if (i =? 0)%nat then 0 else 1) v ++ js " "
    ++ nth i units (js "undefined").

Definition formatSpeed (bps : Q) : jsstring :=
  if Qle_bool bps 0 then js "0 B/s" else formatBytes bps ++ js "/s".

Definition formatStatusbarSpeed (bps : Q) : jsstring :=
  if Qle_bool bps 0 then js "0 B/s" else formatSpeed bps.

(** [formatEta]; [None] is [null] or [undefined]. *)
Definition formatEta (seconds : option Q) : jsstring :=
  match seconds with
  | None => DASH
  | Some sec =>
      if Qeq_bool sec 0 || Qle_bool sec 0 then DASH
      else
        let s := Qfloor sec in
        let m := s / 60 in
        let h := m / 60 in
        let ss := Z.rem s 60 in
        let mm := Z.rem m 60 in
        if 0 <? h then decimal h ++ js "h " ++ decimal mm ++ js "m"
        else if 0 <? m then decimal m ++ js "m " ++ decimal ss ++ js "s"
        else decimal ss ++ js "s"
  end.

Definition formatDuration (seconds : Q) : jsstring :=
  let s := Z.max 0 (Qfloor seconds) in
  let m := s / 60 in
  let h := m / 60 in
  let ss := Z.rem s 60 in
  let mm := Z.rem m 60 in
  if 0 <? h then decimal h ++ js "h " ++ decimal mm ++ js "m"
  else if 0 <? m then decimal m ++ js "m " ++ decimal ss ++ js "s"
  else decimal ss ++ js "s".

Section TookText.
(** [Date.parse] of the host platform: milliseconds, or [None] for [NaN]. *)
Variable Date_parse : jsstring -> option Z.

(** [!v] for a nullable string: [null] and the empty string are falsy. *)
Definition falsy_string (v : option jsstring) : bool :=
  match v with Some s => negb (Boolean s) | None => true end.

Definition tookText (d : DownloadRecord) : jsstring :=
  if falsy_string (started_at d) || falsy_string (completed_at d)
  then js "took " ++ DASH
  else
    match Date_parse (default [] (started_at d)),
          Date_parse (default [] (completed_at d)) with
    | Some a, Some b =>
        if b <=? a then js "took " ++ DASH
        else js "took " ++ formatDuration (inject_Z (b - a) / 1000)
    | _, _ => js "took " ++ DASH
    end.
End TookText.

(* ===================================================================== *)
(** ** [App.tsx]: keyboard, paste and the batch dialog                    *)
(* ===================================================================== *)



Record AddDownloadsRequest := {
  adr_urls : list jsstring;
  adr_dest_dir : option jsstring
}.

Record NewBatchRequest := {
  nbr_name : option jsstring;
  nbr_dest_dir : jsstring;
  nbr_raw_url_list : option jsstring;
  nbr_urls : list jsstring;
  nbr_download_through_proxy : option bool
}.

(** The commands that add downloads. *)
Inductive AddCommand :=
  | cmd_add_downloads (req : AddDownloadsRequest)
  | cmd_add_batch (req : NewBatchRequest).

(** What [onPaste] reads of [ev.target]: [t.tagName?.toLowerCase()],
    [t.isContentEditable], and whether [t.closest?.(...)] finds an editable
    ancestor. *)
Record PasteTarget := {
  tag : option jsstring;
  isContentEditable : bool;
  closest_editable : bool
}.

Record PasteOutcome := {
  default_prevented : bool;
  paste_invoked : option AddCommand
}.

Definition paste_ignored : PasteOutcome :=
  {| default_prevented := false; paste_invoked := None |}.

Section Adding.
Variable new_URL : jsstring -> completion URL.

(** [onPaste]; [modalOpen] is [modalOpenRef.current], [t] is [ev.target]
    and [clip] is [ev.clipboardData?.getData('text')]. *)
Definition onPaste (modalOpen : bool) (t : option PasteTarget)
    (clip : option jsstring) : completion PasteOutcome :=
  if modalOpen then Normal paste_ignored
  else
    let editable :=
      match t with
      | None => false
      | Some t =>
          bool_decide (tag t = Some (js "input"))
          || bool_decide (tag t = Some (js "textarea"))
          || bool_decide (tag t = Some (js "select"))
          || isContentEditable t
          || closest_editable t
      end in
    if editable then Normal paste_ignored
    else
      let text := default [] clip in
      let! urls := parseUrlsFromText new_URL text in
      if (length urls =? 0)%nat then Normal paste_ignored
      else Normal {| default_prevented := true;
                     paste_invoked :=
                       Some (cmd_add_downloads
                               {| adr_urls := urls; adr_dest_dir := None |}) |}.

(** [urls.join('\n')] *)
Fixpoint join_lf (l : list jsstring) : jsstring :=
  match l with
  | [] => []
  | [x] => x
  | x :: r => x ++ 10%N :: join_lf r
  end.

(** [onStart] of the batch dialog, as [App] passes it. *)
Definition BatchModal_onStart (urls : list jsstring) (destDir : jsstring)
    (downloadThroughProxy : bool) : AddCommand :=
  cmd_add_batch
    {| nbr_name := None; nbr_dest_dir := destDir;
       nbr_raw_url_list := Some (join_lf urls); nbr_urls := urls;
       nbr_download_through_proxy := Some downloadThroughProxy |}.

(** A click on [Start] with [text] in the text area: the command invoked,
    if any. *)
Definition BatchModal_start_click (text dest : jsstring) (useProxy : bool)
  : completion (option AddCommand) :=
  let! r := BatchModal_start new_URL text in
  Normal (match r with
          | None => None
          | Some urls => Some (BatchModal_onStart urls dest useProxy)
          end).
End Adding.

(** [canUseProxy] of the batch dialog:
    [!!s.global_proxy_url && s.global_proxy_url.trim().length > 0]. *)
Definition canUseProxy (s : SettingsSnapshot) : bool :=
  match global_proxy_url s with
  | Some u => Boolean u && (0 <? length (trim u))%nat
  | None => false
  end.

(* ===================================================================== *)
(** ** [App.tsx]: the other buttons of the context menu                   *)
(* ===================================================================== *)

Definition open_folder_onClick (el : CtxMenu) : Command * option CtxMenu :=
  (cmd_open_download_folder (dataset_dest el), hideContextMenu (Some el)).

Definition retry_onClick (el : CtxMenu) : Command * option CtxMenu :=
  (cmd_retry_download (dataset_id el), hideContextMenu (Some el)).

Definition delete_onClick (el : CtxMenu) : Command * option CtxMenu :=
  (cmd_delete_download (dataset_id el), hideContextMenu (Some el)).

Definition add_domain_onClick (el : CtxMenu) : Command * option CtxMenu :=
  (cmd_add_domain_to_proxy_and_retry (dataset_id el) (dataset_url el),
   hideContextMenu (Some el)).

(* ===================================================================== *)
(** ** [App.tsx]: the proxy rules of the settings editor                  *)
(* ===================================================================== *)

Record ProxyRule := {
  pr_id : Z;
  pr_pattern : jsstring;
  pr_enabled : bool;
  pr_use_proxy : bool;
  pr_proxy_url_override : option jsstring
}.

Section Rules.
(** The header and mirror rules, whose JSON payload the editor treats as
    opaque; only their lists matter here. *)
Variables HeaderRule MirrorRule : Type.

Record RulesSnapshot := {
  proxy_rules : list ProxyRule;
  header_rules : list HeaderRule;
  mirror_rules : list MirrorRule
}.

(** [{ ...r, proxy_rules: l }] *)
Definition with_proxy_rules (r : RulesSnapshot) (l : list ProxyRule)
  : RulesSnapshot :=
  {| proxy_rules := l; header_rules := header_rules r;
     mirror_rules := mirror_rules r |}.

(** [onChange] of the pattern input of the rule [pr]. *)
Definition proxy_pattern_onChange (pr : ProxyRule) (value : jsstring)
    (r : RulesSnapshot) : RulesSnapshot :=
  with_proxy_rules r
    (List.map (fun x => if pr_id x =? pr_id pr
                        then {| pr_id := pr_id x; pr_pattern := value;
                                pr_enabled := pr_enabled x;
                                pr_use_proxy := pr_use_proxy x;
                                pr_proxy_url_override := pr_proxy_url_override x |}
                        else x)
              (proxy_rules r)).

Definition proxy_enabled_onChange (pr : ProxyRule) (checked : bool)
    (r : RulesSnapshot) : RulesSnapshot :=
  with_proxy_rules r
    (List.map (fun x => if pr_id x =? pr_id pr
                        then {| pr_id := pr_id x; pr_pattern := pr_pattern x;
                                pr_enabled := checked;
                                pr_use_proxy := pr_use_proxy x;
                                pr_proxy_url_override := pr_proxy_url_override x |}
                        else x)
              (proxy_rules r)).

Definition proxy_use_proxy_onChange (pr : ProxyRule) (checked : bool)
    (r : RulesSnapshot) : RulesSnapshot :=
  with_proxy_rules r
    (List.map (fun x => if pr_id x =? pr_id pr
                        then {| pr_id := pr_id x; pr_pattern := pr_pattern x;
                                pr_enabled := pr_enabled x;
                                pr_use_proxy := checked;
                                pr_proxy_url_override := pr_proxy_url_override x |}
                        else x)
              (proxy_rules r)).

(** The arguments of [cmd_upsert_proxy_rule]. *)
Record UpsertProxyRule := {
  up_id : option Z;
  up_pattern : jsstring;
  up_enabled : bool;
  up_use_proxy : bool;
  up_proxy_url_override : option jsstring
}.

Inductive RuleCommand :=
  | cmd_delete_proxy_rule (id : Z)
  | cmd_upsert_proxy_rule (args : UpsertProxyRule).

(** [Delete] of the rule [pr]: the command invoked, if any, and the rules
    of the editor afterwards; [rr] is what [cmd_list_rules] answers after
    the deletion. *)
Definition proxy_delete_onClick (pr : ProxyRule) (rr r : RulesSnapshot)
  : option RuleCommand * RulesSnapshot :=
  if pr_id pr <? 0
  then (None,
        with_proxy_rules r
          (List.filter (fun x => negb (pr_id x =? pr_id pr)) (proxy_rules r)))
  else (Some (cmd_delete_proxy_rule (pr_id pr)), rr).

(** [Save] of the rule [pr]: the command invoked; the editor then takes
    the rules [cmd_list_rules] answers. *)
Definition proxy_save_onClick (pr : ProxyRule) : RuleCommand :=
  cmd_upsert_proxy_rule
    {| up_id := if 0 <? pr_id pr then Some (pr_id pr) else None;
       up_pattern := pr_pattern pr;
       up_enabled := pr_enabled pr;
       up_use_proxy := pr_use_proxy pr;
       up_proxy_url_override := pr_proxy_url_override pr |}.

(** [Add proxy rule]; [now] is [Date.now()]. *)
Definition add_proxy_rule_onClick (now : Z) (r : RulesSnapshot)
  : RulesSnapshot :=
  with_proxy_rules r
    ({| pr_id := - now; pr_pattern := js "example.com"; pr_enabled := true;
        pr_use_proxy := true; pr_proxy_url_override := None |}
     :: proxy_rules r).
End Rules.

(* ===================================================================== *)
(** ** Vocabulary of the statements                                       *)
(* ===================================================================== *)

(** The record [d] with the error code [c] in place of its own, and the
    update [u] with the error code [c] in place of its own. *)
Definition with_error_code (c : option ErrorCode) (d : DownloadRecord)
  : DownloadRecord :=
  {| id := id d; created_at := created_at d; updated_at := updated_at d;
     started_at := started_at d; completed_at := completed_at d;
     forced_proxy := forced_proxy d; forced_proxy_url := forced_proxy_url d;
     original_url := original_url d; resolved_url := resolved_url d;
     dest_dir := dest_dir d; final_filename := final_filename d;
     temp_path := temp_path d; status := status d; error_code := c;
     error_message := error_message d; content_length := content_length d;
     etag := etag d; last_modified := last_modified d;
     bytes_downloaded := bytes_downloaded d;
     supports_ranges := supports_ranges d; mirror_used := mirror_used d;
     batch_id := batch_id d |}.

Definition with_p_error_code (c : option ErrorCode) (u : DownloadProgressUpdate)
  : DownloadProgressUpdate :=
  {| p_id := p_id u; p_status := p_status u;
     p_bytes_downloaded := p_bytes_downloaded u;
     p_content_length := p_content_length u; p_speed_bps := p_speed_bps u;
     p_eta_seconds := p_eta_seconds u; p_error_code := c;
     p_error_message := p_error_message u; p_updated_at := p_updated_at u |}.

(** A stored record in [ERROR] with a code and a message, and a live
    update about the same download with a code and a message of its own. *)
Definition sample_failed (i : jsstring) : DownloadRecord :=
  {| id := i; created_at := js "2025-12-25T10:00:00Z";
     updated_at := js "2025-12-25T10:05:00Z";
     started_at := Some (js "2025-12-25T10:00:01Z"); completed_at := None;
     forced_proxy := false; forced_proxy_url := None;
     original_url := js "https://example.com/a.bin"; resolved_url := None;
     dest_dir := js "C:/Downloads"; final_filename := None;
     temp_path := None; status := ERROR; error_code := Some DNS_FAIL;
     error_message := Some (js "host not found"); content_length := None;
     etag := None; last_modified := None; bytes_downloaded := 0;
     supports_ranges := None; mirror_used := None; batch_id := None |}.

Definition sample_failed_update (i : jsstring) (s : DownloadStatus)
  : DownloadProgressUpdate :=
  {| p_id := i; p_status := s; p_bytes_downloaded := 0;
     p_content_length := None; p_speed_bps := 0%Q;
     p_eta_seconds := None; p_error_code := Some TIMEOUT;
     p_error_message := Some (js "Retrying in 8s");
     p_updated_at := js "2025-12-25T10:05:30Z" |}.


(** How many downloads of [l] have status [s]. *)
Definition with_status (s : DownloadStatus) (l : list DownloadRecord) : nat :=
  length (List.filter (fun d => bool_decide (status d = s)) l).

(** The last update of [batch] that is about the download [i]. *)
Definition last_for (i : jsstring) (batch : list DownloadProgressUpdate)
  : option DownloadProgressUpdate :=
  last (List.filter (fun u => bool_decide (p_id u = i)) batch).

(** No code unit of [s] is whitespace. *)
Definition no_whitespace (s : jsstring) : Prop :=
  Forall (fun c => is_js_whitespace c = false) s.

(** [p] is a whitespace-delimited token of [text]: a non-empty run without
    whitespace that whitespace or an end of the text bounds on each side. *)
Definition is_token (p text : jsstring) : Prop :=
  p <> []
  /\ no_whitespace p
  /\ exists pre post,
       text = pre ++ p ++ post
       /\ (pre = [] \/ exists pre' w, pre = pre' ++ [w] /\ is_js_whitespace w = true)
       /\ (post = [] \/ exists w post', post = w :: post' /\ is_js_whitespace w = true).

(** What a token contributes to the result: the serialisation of its
    URL when [new URL] accepts it with protocol [http:] or [https:]. *)
Definition accepted (new_URL : jsstring -> completion URL) (p : jsstring)
  : option jsstring :=
  match new_URL p with
  | Normal u =>
      if bool_decide (protocol u = js "http:")
         || bool_decide (protocol u = js "https:")
      then Some (toString u) else None
  | Throw _ => None
  end.

(* ===================================================================== *)
(** * Properties                                                          *)
(* ===================================================================== *)

(** A closed decidable proposition, settled by evaluating its decision. *)
Ltac by_computation := apply (bool_decide_unpack _); vm_compute; exact I.

(** ** The status bar *)

Lemma incr_total (c : Counts) (s : DownloadStatus) :
  (n_QUEUED (incr c s) + n_DOWNLOADING (incr c s) + n_PAUSED (incr c s)
   + n_COMPLETED (incr c s) + n_ERROR (incr c s)
   = S (n_QUEUED c + n_DOWNLOADING c + n_PAUSED c + n_COMPLETED c + n_ERROR c))%nat.
Proof. destruct s; simpl; lia. Qed.

Lemma counts_foldl (l : list DownloadRecord) (c : Counts) :
  let c' := foldl (fun c d => incr c (status d)) c l in
  (n_QUEUED c' = n_QUEUED c + with_status QUEUED l
   /\ n_DOWNLOADING c' = n_DOWNLOADING c + with_status DOWNLOADING l
   /\ n_PAUSED c' = n_PAUSED c + with_status PAUSED l
   /\ n_COMPLETED c' = n_COMPLETED c + with_status COMPLETED l
   /\ n_ERROR c' = n_ERROR c + with_status ERROR l)%nat.
Proof.
  revert c. induction l as [|d l IH]; intros c; cbn zeta.
  - unfold with_status; simpl. lia.
  - simpl foldl. specialize (IH (incr c (status d))). cbn zeta in IH.
    destruct IH as (H1 & H2 & H3 & H4 & H5).
    rewrite H1, H2, H3, H4, H5. clear H1 H2 H3 H4 H5.
    unfold with_status. simpl List.filter.
    destruct (status d); simpl; lia.
Qed.

Lemma with_status_partition (l : list DownloadRecord) :
  (with_status QUEUED l + with_status DOWNLOADING l + with_status PAUSED l
   + with_status COMPLETED l + with_status ERROR l = length l)%nat.
Proof.
  unfold with_status. induction l as [|d l IH]; [reflexivity|].
  simpl. destruct (status d); simpl; lia.
Qed.

(** C6. A status is exactly one of the five members of [DownloadStatus],
    each counter of the status bar is the number of downloads in that
    status, and the five counters add up to the number of downloads. *)
Theorem statusSummary_counts_partition :
  (forall s : DownloadStatus,
     length (List.filter (fun s' => bool_decide (s = s'))
               [QUEUED; DOWNLOADING; PAUSED; COMPLETED; ERROR]) = 1%nat)
  /\ forall st : AppState,
       let c := counts (statusSummary st) in
       (n_QUEUED c = with_status QUEUED (downloads st)
        /\ n_DOWNLOADING c = with_status DOWNLOADING (downloads st)
        /\ n_PAUSED c = with_status PAUSED (downloads st)
        /\ n_COMPLETED c = with_status COMPLETED (downloads st)
        /\ n_ERROR c = with_status ERROR (downloads st)
        /\ n_QUEUED c + n_DOWNLOADING c + n_PAUSED c + n_COMPLETED c + n_ERROR c
           = length (downloads st))%nat.
Proof.
  split.
  - intros []; reflexivity.
  - intros st c.
    pose proof (counts_foldl (downloads st) no_counts) as H.
    cbn zeta in H. fold c in H || idtac.
    destruct H as (H1 & H2 & H3 & H4 & H5).
    unfold c, statusSummary; cbn [counts].
    rewrite H1, H2, H3, H4, H5. cbn [no_counts n_QUEUED n_DOWNLOADING n_PAUSED n_COMPLETED n_ERROR].
    pose proof (with_status_partition (downloads st)). lia.
Qed.

(** ** The error taxonomy *)

Lemma ErrorCode_members_complete (c : ErrorCode) : c ∈ ErrorCode_members.
Proof. destruct c; unfold ErrorCode_members; set_solver. Qed.

Lemma ErrorCode_string_inj (c c' : ErrorCode) :
  ErrorCode_string c = ErrorCode_string c' -> c = c'.
Proof. destruct c, c'; intros H; first [reflexivity | discriminate H]. Qed.

Lemma row_of_d progress (d : DownloadRecord) : row_d (row_of progress d) = d.
Proof. reflexivity. Qed.

Lemma status_cell_error (r : Row) (m : jsstring) :
  row_status r = ERROR -> row_err r = Some m -> status_cell r = m.
Proof.
  intros Hs He. unfold status_cell. rewrite Hs, He.
  rewrite bool_decide_eq_true_2 by reflexivity. reflexivity.
Qed.

(** C3, as stated, fails: the UI never shows the error code, and what it
    shows of an error need not come from the record. For a record in
    [ERROR] with code [DNS_FAIL] and a message, the status cell shows the
    message alone; with a live update that carries a message of its own
    the cell shows that one; and with a live update whose status is not
    [ERROR] it shows the status. *)
Lemma error_code_not_shown :
  let d := sample_failed (js "d1") in
  let shown u := status_cell (row_of {[ js "d1" := u ]} d) in
  error_code d = Some DNS_FAIL
  /\ error_message d = Some (js "host not found")
  /\ status_cell (row_of ∅ d) = js "host not found"
  /\ status_cell (row_of ∅ d) <> ErrorCode_string DNS_FAIL
  /\ shown (sample_failed_update (js "d1") ERROR) = js "Retrying in 8s"
  /\ shown (sample_failed_update (js "d1") DOWNLOADING) = js "DOWNLOADING".
Proof.
  repeat split; try (vm_compute; reflexivity). vm_compute. discriminate.
Qed.

(** C3, amended. [ErrorCode] has exactly the thirteen members of the
    taxonomy, each a distinct string, and nothing else. The UI does not
    show the code: the status cell depends on no error code, neither the
    record's nor the live update's. When the status a row displays (the
    live update's, else the record's) is [ERROR], the cell shows an error
    message unchanged: that of the live update when it carries one, else
    that of the record, else the text [Error]; for any other status it
    shows the status. *)
Theorem ErrorCode_taxonomy_and_error_text :
  (ErrorCode_string <$> ErrorCode_members
   = [ js "DNS_FAIL"; js "CONNECT_FAIL"; js "TLS_FAIL"; js "HTTP_4XX";
       js "HTTP_5XX"; js "TIMEOUT"; js "RANGE_UNSUPPORTED"; js "DISK_FULL";
       js "REMOTE_CHANGED"; js "PERMISSION_DENIED"; js "CANCELLED";
       js "INVALID_URL"; js "UNKNOWN" ])
  /\ length ErrorCode_members = 13%nat
  /\ NoDup (ErrorCode_string <$> ErrorCode_members)
  /\ (forall c : ErrorCode, c ∈ ErrorCode_members)
  /\ (forall c c' : ErrorCode, ErrorCode_string c = ErrorCode_string c' -> c = c')
  /\ forall (progress : gmap (list N) DownloadProgressUpdate) (d : DownloadRecord),
       let shown :=
         match progress !! id d with Some u => p_status u | None => status d end in
       let message :=
         match progress !! id d with
         | Some u =>
             match p_error_message u with
             | Some m => Some m
             | None => error_message d
             end
         | None => error_message d
         end in
       status_cell (row_of progress d)
       = match shown with
         | ERROR => match message with Some m => m | None => js "Error" end
         | _ => DownloadStatus_string shown
         end
       /\ (forall c,
             status_cell (row_of progress (with_error_code c d))
             = status_cell (row_of progress d))
       /\ (forall c u,
             progress !! id d = Some u ->
             status_cell (row_of (<[id d := with_p_error_code c u]> progress) d)
             = status_cell (row_of progress d)).
Proof.
  split; [reflexivity|]. split; [reflexivity|].
  split.
  { by_computation. }
  split; [exact ErrorCode_members_complete|].
  split; [exact ErrorCode_string_inj|].
  intros progress d shown message. split; [|split].
  - unfold status_cell, row_status, row_err, row_of; cbn [row_p row_d].
    fold shown. fold message.
    destruct shown; destruct message; reflexivity.
  - intros c. unfold status_cell, row_status, row_err, row_of; cbn [row_p row_d].
    reflexivity.
  - intros c u Hu.
    unfold status_cell, row_status, row_err, row_of; cbn [row_p row_d].
    rewrite lookup_insert_eq, Hu. reflexivity.
Qed.

(** ** The progress fraction *)






(** ** Pause / Resume *)


Lemma row_onContextMenu_Some x y r el :
  row_onContextMenu x y r (Some el)
  = Some {| style_left_px := Some x; style_top_px := Some y;
            style_display := js "block";
            dataset_id := Some (id (row_d r));
            dataset_url := Some (match resolved_url (row_d r) with
                                 | Some u => u
                                 | None => original_url (row_d r)
                                 end);
            dataset_dest := Some (dest_dir (row_d r));
            dataset_status := Some (DownloadStatus_string (row_status r)) |}.
Proof. reflexivity. Qed.







(** ** Refreshing the list and merging progress *)

Lemma active_ids_spec (lst : list DownloadRecord) (i : jsstring) :
  i ∈ active_ids lst
  <-> exists d, d ∈ lst /\ id d = i /\ (status d = DOWNLOADING \/ status d = QUEUED).
Proof.
  unfold active_ids. rewrite elem_of_list_to_set, list_elem_of_In, in_map_iff.
  split.
  - intros (d & Hid & Hin). apply filter_In in Hin as [Hin Hact].
    exists d. rewrite list_elem_of_In. split; [exact Hin|]. split; [exact Hid|].
    unfold active_status in Hact. apply orb_true_iff in Hact as [H|H];
      apply bool_decide_eq_true_1 in H; auto.
  - intros (d & Hin & Hid & Hact). exists d. split; [exact Hid|].
    apply filter_In. split; [apply list_elem_of_In, Hin|].
    unfold active_status. apply orb_true_iff.
    destruct Hact as [H|H]; [left|right]; apply bool_decide_eq_true_2, H.
Qed.

Lemma keep_active_lookup (a : gset (list N))
    (m : gmap (list N) DownloadProgressUpdate) (i : jsstring) :
  map_fold (fun id v next =>
              if bool_decide (id ∈ a) then <[id := v]> next else next)
           (∅ : gmap (list N) DownloadProgressUpdate) m !! i
  = if bool_decide (i ∈ a) then m !! i else None.
Proof.
  revert i.
  apply (map_fold_weak_ind
           (fun r m => forall i, r !! i = if bool_decide (i ∈ a) then m !! i else None)).
  - intros i. rewrite !lookup_empty. destruct (bool_decide _); reflexivity.
  - intros j x m' r Hj IH i.
    destruct (decide (j = i)) as [->|Hne].
    + destruct (bool_decide (i ∈ a)) eqn:E.
      * rewrite !lookup_insert_eq. reflexivity.
      * rewrite IH, E. reflexivity.
    + rewrite (lookup_insert_ne m') by exact Hne.
      destruct (bool_decide (j ∈ a)).
      * rewrite lookup_insert_ne by exact Hne. apply IH.
      * apply IH.
Qed.

Lemma refreshDownloads_lookup lst st (i : jsstring) :
  progressById (refreshDownloads lst st) !! i
  = if bool_decide (i ∈ active_ids lst) then progressById st !! i else None.
Proof. unfold refreshDownloads; cbn [progressById]. apply keep_active_lookup. Qed.

Lemma unique_id_not_active (lst : list DownloadRecord) (d : DownloadRecord) :
  NoDup (List.map id lst) -> d ∈ lst ->
  status d <> DOWNLOADING -> status d <> QUEUED ->
  id d ∉ active_ids lst.
Proof.
  intros Hnd Hd H1 H2 Hin.
  apply active_ids_spec in Hin as (d' & Hd' & Hid & Hact).
  assert (d' = d) as ->.
  { clear H1 H2 Hact. induction lst as [|x l IH]; [inversion Hd|].
    simpl in Hnd. apply NoDup_cons in Hnd as [Hx Hl].
    apply elem_of_cons in Hd as [->|Hd]; apply elem_of_cons in Hd' as [->|Hd'].
    - reflexivity.
    - exfalso. apply Hx. apply list_elem_of_In, in_map_iff.
      exists d'. split; [exact Hid|]. apply list_elem_of_In, Hd'.
    - exfalso. apply Hx. apply list_elem_of_In, in_map_iff.
      exists d. split; [symmetry; exact Hid|]. apply list_elem_of_In, Hd.
    - apply IH; assumption. }
  destruct Hact; contradiction.
Qed.

(** C4. After a refresh with a list whose ids are unique, the progress map
    holds an entry only for an id whose download is [DOWNLOADING] or
    [QUEUED] in the list (and then the entry it held before); for a
    download that the list has as [COMPLETED], [PAUSED] or [ERROR] the map
    holds nothing, so the row shows the status of the stored record,
    whatever update the map held for it before the refresh. *)
Theorem refreshDownloads_drops_stale_progress
    (lst : list DownloadRecord) (st : AppState)
    (unique_ids : NoDup (List.map id lst)) :
  let st' := refreshDownloads lst st in
  downloads st' = lst
  /\ (forall i u, progressById st' !! i = Some u ->
        progressById st !! i = Some u
        /\ exists d, d ∈ lst /\ id d = i
                     /\ (status d = DOWNLOADING \/ status d = QUEUED))
  /\ (forall d, d ∈ lst -> status d = DOWNLOADING \/ status d = QUEUED ->
        progressById st' !! id d = progressById st !! id d)
  /\ (forall d, d ∈ lst ->
        status d = COMPLETED \/ status d = PAUSED \/ status d = ERROR ->
        progressById st' !! id d = None
        /\ row_status (row_of (progressById st') d) = status d).
Proof.
  intros st'. split; [reflexivity|]. split; [|split].
  - intros i u H. unfold st' in H. rewrite refreshDownloads_lookup in H.
    destruct (bool_decide (i ∈ active_ids lst)) eqn:E; [|discriminate H].
    apply bool_decide_eq_true_1 in E.
    split; [exact H|]. apply active_ids_spec, E.
  - intros d Hd Hact. unfold st'. rewrite refreshDownloads_lookup.
    rewrite bool_decide_eq_true_2; [reflexivity|].
    apply active_ids_spec. exists d. auto.
  - intros d Hd Hs.
    assert (Hnone : progressById st' !! id d = None).
    { unfold st'. rewrite refreshDownloads_lookup.
      rewrite bool_decide_eq_false_2; [reflexivity|].
      apply unique_id_not_active; [exact unique_ids | exact Hd | |];
        destruct Hs as [H|[H|H]]; rewrite H; discriminate. }
    split; [exact Hnone|].
    unfold row_status, row_of; cbn [row_p row_d]. rewrite Hnone. reflexivity.
Qed.

Lemma refreshDownloads_drops_stale_progress_witness :
  let d1 := sample_download (js "d1") COMPLETED in
  let d2 := sample_download (js "d2") DOWNLOADING in
  let st := {| downloads := [d2; d1];
               progressById :=
                 {[ js "d1" := sample_update (js "d1") DOWNLOADING 990;
                    js "d2" := sample_update (js "d2") DOWNLOADING 10 ]} |} in
  NoDup (List.map id [d1; d2])
  /\ progressById st !! id d1 = Some (sample_update (js "d1") DOWNLOADING 990)
  /\ row_status (row_of (progressById st) d1) = DOWNLOADING
  /\ progressById (refreshDownloads [d1; d2] st) !! id d1 = None
  /\ row_status (row_of (progressById (refreshDownloads [d1; d2] st)) d1)
     = COMPLETED.
Proof.
  intros d1 d2 st.
  assert (Hnd : NoDup (List.map id [d1; d2])).
  { by_computation. }
  split; [exact Hnd|]. split; [reflexivity|]. split; [reflexivity|].
  apply (refreshDownloads_drops_stale_progress [d1; d2] st Hnd).
  - set_solver.
  - left. reflexivity.
Defined.

Lemma merge_batch_lookup (batch : list DownloadProgressUpdate)
    (m : gmap (list N) DownloadProgressUpdate) (i : jsstring) :
  foldl (fun next u => <[p_id u := u]> next) m batch !! i
  = match last_for i batch with Some u => Some u | None => m !! i end.
Proof.
  revert m. induction batch as [|u batch IH]; intros m; [reflexivity|].
  simpl foldl. rewrite IH. unfold last_for. simpl List.filter.
  destruct (decide (p_id u = i)) as [Hi|Hi].
  - rewrite (bool_decide_eq_true_2 _ Hi), last_cons.
    destruct (last _); [reflexivity|]. rewrite Hi. apply lookup_insert_eq.
  - rewrite (bool_decide_eq_false_2 _ Hi).
    destruct (last _); [reflexivity|]. apply lookup_insert_ne, Hi.
Qed.

Lemma deliver_progress_batch e store st :
  channel e = EVENT_PROGRESS_BATCH ->
  deliver e store st = on_progress_batch (payload e) st.
Proof.
  intros H. unfold deliver, listeners. cbn [foldl fst snd]. rewrite H.
  rewrite (bool_decide_eq_true_2 (EVENT_PROGRESS_BATCH = _)) by reflexivity.
  rewrite (bool_decide_eq_false_2 (EVENT_DOWNLOADS_CHANGED = _)) by discriminate.
  reflexivity.
Qed.

Lemma deliver_downloads_changed e store st :
  channel e = EVENT_DOWNLOADS_CHANGED ->
  deliver e store st = refreshDownloads store st.
Proof.
  intros H. unfold deliver, listeners. cbn [foldl fst snd]. rewrite H.
  rewrite (bool_decide_eq_false_2 (EVENT_PROGRESS_BATCH = _)) by discriminate.
  rewrite (bool_decide_eq_true_2 (EVENT_DOWNLOADS_CHANGED = _)) by reflexivity.
  reflexivity.
Qed.

Lemma deliver_other e store st :
  channel e <> EVENT_PROGRESS_BATCH -> channel e <> EVENT_DOWNLOADS_CHANGED ->
  deliver e store st = st.
Proof.
  intros H1 H2. unfold deliver, listeners. cbn [foldl fst snd].
  rewrite (bool_decide_eq_false_2 (EVENT_PROGRESS_BATCH = _))
    by (intros H; symmetry in H; contradiction).
  rewrite (bool_decide_eq_false_2 (EVENT_DOWNLOADS_CHANGED = _))
    by (intros H; symmetry in H; contradiction).
  reflexivity.
Qed.

Lemma on_progress_batch_lookup payload st (i : jsstring) :
  progressById (on_progress_batch payload st) !! i
  = match last_for i (default [] payload) with
    | Some u => Some u
    | None => progressById st !! i
    end.
Proof.
  unfold on_progress_batch.
  destruct (default [] payload) as [|u b] eqn:E; [reflexivity|].
  cbn [length Nat.eqb progressById]. apply merge_batch_lookup.
Qed.

(** C5. [App] listens on exactly two channels, [ProgressBatch] and
    [DownloadsChanged]. A [ProgressBatch] event leaves the download list
    alone and merges its payload into the progress map by id: an id gets
    the last update of the batch that is about it, an id the batch does not
    mention keeps its entry, and an empty or absent payload changes
    nothing. A [DownloadsChanged] event is a refresh: the download list
    becomes the list the store answers. An event of any other channel
    changes nothing. *)
Theorem event_listeners_merge_and_refresh :
  listeners.*1 = [EVENT_PROGRESS_BATCH; EVENT_DOWNLOADS_CHANGED]
  /\ EVENT_PROGRESS_BATCH <> EVENT_DOWNLOADS_CHANGED
  /\ forall (e : Event) (store : list DownloadRecord) (st : AppState),
       (channel e = EVENT_PROGRESS_BATCH ->
          downloads (deliver e store st) = downloads st
          /\ (forall i : jsstring,
                progressById (deliver e store st) !! i
                = match last_for i (default [] (payload e)) with
                  | Some u => Some u
                  | None => progressById st !! i
                  end)
          /\ (default [] (payload e) = [] -> deliver e store st = st))
       /\ (channel e = EVENT_DOWNLOADS_CHANGED ->
             deliver e store st = refreshDownloads store st
             /\ downloads (deliver e store st) = store)
       /\ (channel e <> EVENT_PROGRESS_BATCH ->
           channel e <> EVENT_DOWNLOADS_CHANGED ->
             deliver e store st = st).
Proof.
  split; [reflexivity|]. split; [discriminate|].
  intros e store st. split; [|split].
  - intros H. rewrite (deliver_progress_batch _ _ _ H).
    split; [|split].
    + unfold on_progress_batch. destruct (length _ =? 0)%nat; reflexivity.
    + intros i. apply on_progress_batch_lookup.
    + intros Hempty. unfold on_progress_batch. rewrite Hempty. reflexivity.
  - intros H. rewrite (deliver_downloads_changed _ _ _ H).
    split; reflexivity.
  - apply deliver_other.
Qed.

(** ** Splitting on whitespace *)

Lemma trim_start_no_whitespace s : no_whitespace s -> trim_start s = s.
Proof. intros H. destruct H as [|c r Hc _]; simpl; [|rewrite Hc]; reflexivity. Qed.

Lemma trim_no_whitespace s : no_whitespace s -> trim s = s.
Proof.
  intros H. unfold trim. rewrite (trim_start_no_whitespace s H).
  rewrite trim_start_no_whitespace by (apply Forall_rev, H).
  apply rev_involutive.
Qed.

Lemma split_ws_from_no_whitespace s :
  forall b cur, no_whitespace cur -> Forall no_whitespace (split_ws_from b cur s).
Proof.
  induction s as [|c r IH]; intros b cur Hcur; simpl.
  - constructor; [exact Hcur | constructor].
  - destruct (is_js_whitespace c) eqn:Hc.
    + destruct b; [|constructor; [exact Hcur|]]; apply IH; constructor.
    + apply IH. apply Forall_app. split; [exact Hcur|].
      constructor; [exact Hc | constructor].
Qed.

(** A prefix that ends in whitespace is not part of a run without any. *)
Lemma no_whitespace_left_boundary (pre rest : jsstring) :
  no_whitespace (pre ++ rest) ->
  pre = [] \/ (exists pre' w, pre = pre' ++ [w] /\ is_js_whitespace w = true) ->
  pre = [].
Proof.
  intros H [->|(pre' & w & -> & Hw)]; [reflexivity|]. exfalso.
  apply Forall_app in H as [H _]. apply Forall_app in H as [_ H].
  inversion H as [|? ? Hw' _]; subst. rewrite Hw in Hw'. discriminate.
Qed.

Lemma no_whitespace_right_boundary (rest post : jsstring) :
  no_whitespace (rest ++ post) ->
  post = [] \/ (exists w post', post = w :: post' /\ is_js_whitespace w = true) ->
  post = [].
Proof.
  intros H [->|(w & post' & -> & Hw)]; [reflexivity|]. exfalso.
  apply Forall_app in H as [_ H].
  inversion H as [|? ? Hw' _]; subst. rewrite Hw in Hw'. discriminate.
Qed.

Lemma is_token_whole (cur p : jsstring) :
  no_whitespace cur -> p <> [] -> (is_token p cur <-> p = cur).
Proof.
  intros Hcur Hp. split.
  - intros (_ & _ & pre & post & Heq & Hpre & Hpost).
    rewrite Heq in Hcur.
    pose proof (no_whitespace_left_boundary _ _ Hcur Hpre) as ->.
    simpl in Hcur, Heq.
    pose proof (no_whitespace_right_boundary _ _ Hcur Hpost) as ->.
    rewrite app_nil_r in Heq. symmetry. exact Heq.
  - intros ->. split; [exact Hp|]. split; [exact Hcur|].
    exists [], []. rewrite app_nil_r. auto.
Qed.

Lemma is_token_at_whitespace (cur r p : jsstring) (c : N) :
  no_whitespace cur -> is_js_whitespace c = true -> p <> [] ->
  (is_token p (cur ++ c :: r) <-> p = cur \/ is_token p r).
Proof.
  intros Hcur Hc Hp. split.
  - intros (_ & Hnw & pre & post & Heq & Hpre & Hpost).
    apply app_eq_inv in Heq as [(k & Hk & Hrest)|(k & Hk & Hrest)].
    + (* the token starts inside [cur] *)
      left. rewrite Hk in Hcur.
      pose proof (no_whitespace_left_boundary _ _ Hcur Hpre) as ->.
      simpl in Hk, Hcur. subst k.
      apply app_eq_inv in Hrest as [(k & Hk & Hrest)|(k & Hk & Hrest)].
      * (* p = cur ++ k *)
        destruct k as [|x k]; [rewrite app_nil_r in Hk; exact Hk|].
        exfalso. injection Hrest as Hx _. subst x. rewrite Hk in Hnw.
        apply Forall_app in Hnw as [_ Hnw].
        inversion Hnw as [|? ? Hc' _]; subst. rewrite Hc in Hc'. discriminate.
      * (* cur = p ++ k *)
        destruct k as [|x k]; [rewrite app_nil_r in Hk; symmetry; exact Hk|].
        exfalso. rewrite Hk in Hcur.
        assert (Hcur' : no_whitespace (p ++ [x])).
        { apply Forall_app in Hcur as [H1 H2]. apply Forall_app. split; [exact H1|].
          inversion H2; subst. constructor; [assumption | constructor]. }
        destruct Hpost as [->|(w & post' & -> & Hw)]; [discriminate Hrest|].
        injection Hrest as Hx _. subst w.
        apply Forall_app in Hcur' as [_ Hx]. inversion Hx as [|? ? Hx' _]; subst.
        rewrite Hw in Hx'. discriminate.
    + (* the token starts after [c] *)
      right. destruct k as [|x k].
      * exfalso. simpl in Hrest. destruct p as [|y p]; [contradiction|].
        injection Hrest as Hy _. subst y.
        inversion Hnw as [|? ? Hc' _]; subst. rewrite Hc in Hc'. discriminate.
      * injection Hrest as Hx Hr. subst x.
        split; [exact Hp|]. split; [exact Hnw|].
        exists k, post. split; [exact Hr|]. split; [|exact Hpost].
        destruct k as [|w' k' _] using rev_ind; [left; reflexivity|]. right.
        destruct Hpre as [->|(pre' & w & -> & Hw)];
          [destruct cur; discriminate Hk|].
        exists k', w'. split; [reflexivity|].
        change (c :: k' ++ [w']) with ((c :: k') ++ [w']) in Hk.
        rewrite app_assoc in Hk. apply app_inj_tail in Hk as [_ ->]. exact Hw.
  - intros [->|(_ & Hnw & pre & post & Heq & Hpre & Hpost)].
    + split; [exact Hp|]. split; [exact Hcur|].
      exists [], (c :: r). split; [reflexivity|]. split; [left; reflexivity|].
      right. exists c, r. auto.
    + split; [exact Hp|]. split; [exact Hnw|].
      exists (cur ++ c :: pre), post. split; [|split; [|exact Hpost]].
      * rewrite Heq, <- app_assoc. reflexivity.
      * right. destruct Hpre as [->|(pre' & w & -> & Hw)].
        -- exists cur, c. auto.
        -- exists (cur ++ c :: pre'), w. split; [|exact Hw].
           rewrite <- app_assoc. reflexivity.
Qed.

Lemma split_ws_from_tokens (s : jsstring) :
  forall (b : bool) (cur p : jsstring),
    no_whitespace cur -> (b = true -> cur = []) -> p <> [] ->
    (p ∈ split_ws_from b cur s <-> is_token p (cur ++ s)).
Proof.
  induction s as [|c r IH]; intros b cur p Hcur Hb Hp.
  - simpl. rewrite app_nil_r, (is_token_whole cur p Hcur Hp).
    rewrite list_elem_of_singleton. reflexivity.
  - simpl. destruct (is_js_whitespace c) eqn:Hc.
    + rewrite (is_token_at_whitespace cur r p c Hcur Hc Hp).
      assert (Hr : p ∈ split_ws_from true [] r <-> is_token p r).
      { apply (IH true [] p); [constructor | reflexivity | exact Hp]. }
      destruct b.
      * rewrite Hr. rewrite (Hb eq_refl). split; [auto|].
        intros [->|H]; [contradiction | exact H].
      * rewrite elem_of_cons, Hr. reflexivity.
    + assert (Hcur' : no_whitespace (cur ++ [c])).
      { apply Forall_app. split; [exact Hcur|]. constructor; [exact Hc|constructor]. }
      rewrite (IH false (cur ++ [c]) p Hcur' ltac:(discriminate) Hp).
      rewrite <- app_assoc. reflexivity.
Qed.

(** The non-empty trimmed pieces are the whitespace-delimited tokens. *)
Lemma parts_tokens (text p : jsstring) : p ∈ parts text <-> is_token p text.
Proof.
  unfold parts.
  assert (Hmap : List.map trim (split_ws text) = split_ws text).
  { pose proof (split_ws_from_no_whitespace text false [] ltac:(constructor)) as H.
    unfold split_ws. induction H as [|x l Hx _ IH]; [reflexivity|].
    simpl. rewrite (trim_no_whitespace x Hx), IH. reflexivity. }
  rewrite Hmap, list_elem_of_In, filter_In, <- list_elem_of_In.
  split.
  - intros [Hin Hne]. destruct p as [|c p]; [discriminate Hne|].
    apply (split_ws_from_tokens text false [] (c :: p));
      [constructor | discriminate | discriminate | exact Hin].
  - intros Htok. pose proof Htok as (Hne & _).
    split; [|destruct p; [contradiction | reflexivity]].
    apply (split_ws_from_tokens text false [] p);
      [constructor | discriminate | exact Hne | exact Htok].
Qed.

(** ** Sets in insertion order *)

Lemma new_Set_snoc (l : list jsstring) (z : jsstring) :
  new_Set (l ++ [z]) = Set_add (new_Set l) z.
Proof. unfold new_Set. apply foldl_snoc. Qed.

Lemma new_Set_elem_of (l : list jsstring) (x : jsstring) :
  x ∈ new_Set l <-> x ∈ l.
Proof.
  induction l as [|z l IH] using rev_ind; [reflexivity|].
  rewrite new_Set_snoc, elem_of_app, list_elem_of_singleton. unfold Set_add.
  destruct (decide (z ∈ new_Set l)) as [Hz|Hz].
  - rewrite (bool_decide_eq_true_2 _ Hz), IH. split; [auto|].
    intros [H| ->]; [exact H | apply IH, Hz].
  - rewrite (bool_decide_eq_false_2 _ Hz), elem_of_app, list_elem_of_singleton, IH.
    reflexivity.
Qed.

Lemma new_Set_NoDup (l : list jsstring) : NoDup (new_Set l).
Proof.
  induction l as [|z l IH] using rev_ind; [constructor|].
  rewrite new_Set_snoc. unfold Set_add.
  destruct (decide (z ∈ new_Set l)) as [Hz|Hz].
  - rewrite (bool_decide_eq_true_2 _ Hz). exact IH.
  - rewrite (bool_decide_eq_false_2 _ Hz). apply NoDup_app.
    split; [exact IH|]. split; [|apply NoDup_singleton].
    intros x Hx Hx'. apply list_elem_of_singleton in Hx'. subst x. contradiction.
Qed.

(** An element that comes earlier in the set was met in the list before
    any occurrence of one that comes later. *)
Lemma new_Set_order (l : list jsstring) (i j : nat) (x y : jsstring) :
  new_Set l !! i = Some x -> new_Set l !! j = Some y -> (i < j)%nat ->
  exists k, l !! k = Some x /\ y ∉ take k l.
Proof.
  revert i j x y. induction l as [|z l IH] using rev_ind; intros i j x y;
    [intros H; discriminate H|].
  rewrite new_Set_snoc. unfold Set_add.
  assert (Hlift : forall k, l !! k = Some x -> y ∉ take k l ->
            exists k, (l ++ [z]) !! k = Some x /\ y ∉ take k (l ++ [z])).
  { intros k Hk Hy. exists k. pose proof (lookup_lt_Some _ _ _ Hk) as Hlt.
    split; [rewrite lookup_app_l by exact Hlt; exact Hk|].
    rewrite take_app_le by lia. exact Hy. }
  destruct (decide (z ∈ new_Set l)) as [Hz|Hz].
  - rewrite (bool_decide_eq_true_2 _ Hz). intros Hi Hj Hij.
    destruct (IH i j x y Hi Hj Hij) as (k & Hk & Hy). eauto.
  - rewrite (bool_decide_eq_false_2 _ Hz). intros Hi Hj Hij.
    apply lookup_snoc_Some in Hj as [[_ Hj]|[Hj ->]].
    + apply lookup_snoc_Some in Hi as [[_ Hi]|[Hi _]];
        [|apply lookup_lt_Some in Hj; lia].
      destruct (IH i j x y Hi Hj Hij) as (k & Hk & Hy). eauto.
    + apply lookup_snoc_Some in Hi as [[_ Hi]|[Hi _]]; [|lia].
      assert (Hx : x ∈ l).
      { apply new_Set_elem_of. apply list_elem_of_lookup. eauto. }
      apply list_elem_of_lookup in Hx as [k Hk].
      apply (Hlift k Hk). intros Hy. apply Hz, new_Set_elem_of.
      apply (elem_of_take _ _ _) in Hy. destruct Hy as (n & Hn & _).
      apply list_elem_of_lookup. eauto.
Qed.

(** ** The URL list *)

Section UrlListFacts.
Variable new_URL : jsstring -> completion URL.

Lemma push_if_http_accepted (p : jsstring) (out : list jsstring) :
  push_if_http new_URL p out
  = Normal (out ++ match accepted new_URL p with Some x => [x] | None => [] end).
Proof.
  unfold push_if_http, accepted, try_catch, cbind.
  destruct (new_URL p) as [u|e]; [|rewrite app_nil_r; reflexivity].
  destruct (_ || _); [reflexivity | rewrite app_nil_r; reflexivity].
Qed.

Lemma for_of_push_if_http (l out : list jsstring) :
  for_of l (push_if_http new_URL) out = Normal (out ++ omap (accepted new_URL) l).
Proof.
  revert out. induction l as [|p l IH]; intros out; simpl.
  - rewrite app_nil_r. reflexivity.
  - rewrite push_if_http_accepted. cbn [cbind]. rewrite IH, <- app_assoc.
    destruct (accepted new_URL p); reflexivity.
Qed.

Lemma collected_eq (text : jsstring) :
  collected new_URL text = Normal (omap (accepted new_URL) (parts text)).
Proof. unfold collected. apply for_of_push_if_http. Qed.

Lemma parseUrlsFromText_eq (text : jsstring) :
  parseUrlsFromText new_URL text
  = Normal (new_Set (omap (accepted new_URL) (parts text))).
Proof. unfold parseUrlsFromText. rewrite collected_eq. reflexivity. Qed.

Lemma accepted_Some (p x : jsstring) :
  accepted new_URL p = Some x
  <-> exists u, new_URL p = Normal u
                /\ (protocol u = js "http:" \/ protocol u = js "https:")
                /\ x = toString u.
Proof.
  unfold accepted. destruct (new_URL p) as [u|e].
  - destruct (decide (protocol u = js "http:")) as [H1|H1];
    destruct (decide (protocol u = js "https:")) as [H2|H2];
    rewrite ?(bool_decide_eq_true_2 _ H1), ?(bool_decide_eq_false_2 _ H1),
            ?(bool_decide_eq_true_2 _ H2), ?(bool_decide_eq_false_2 _ H2);
    cbn [orb]; split;
    try (intros [= <-]; exists u; auto);
    try (intros (u' & [= <-] & _ & ->); reflexivity);
    try discriminate;
    intros (u' & [= <-] & [H|H] & _); contradiction.
  - split; [discriminate|]. intros (u & H & _). discriminate H.
Qed.
End UrlListFacts.

(** C1. For every text and every behaviour of [new URL],
    [parseUrlsFromText] returns normally (it never throws), and its result
    holds exactly the serialised URLs of the whitespace-delimited tokens
    of the text that [new URL] accepts with protocol [http:] or [https:]:
    a token that [new URL] rejects, or whose protocol is another one,
    contributes nothing. *)
Theorem parseUrlsFromText_keeps_http_tokens :
  forall (new_URL : jsstring -> completion URL) (text : jsstring),
  exists urls : list jsstring,
    parseUrlsFromText new_URL text = Normal urls
    /\ forall x : jsstring,
         x ∈ urls
         <-> exists (p : jsstring) (u : URL),
               is_token p text
               /\ new_URL p = Normal u
               /\ (protocol u = js "http:" \/ protocol u = js "https:")
               /\ x = toString u.
Proof.
  intros new_URL text. eexists. split; [apply parseUrlsFromText_eq|].
  intros x. rewrite new_Set_elem_of, list_elem_of_omap. split.
  - intros (p & Hp & Hacc). apply accepted_Some in Hacc as (u & Hu & Hproto & ->).
    exists p, u. split; [apply parts_tokens, Hp|]. auto.
  - intros (p & u & Htok & Hu & Hproto & ->). exists p.
    split; [apply parts_tokens, Htok|]. apply accepted_Some. exists u. auto.
Qed.

(** C9. The result of [parseUrlsFromText] has no duplicates. It holds the
    same strings as the array [out] of normalised URLs that the loop
    collected, each once, in the order of their first occurrence in [out]:
    of two strings of the result, the earlier one occurs in [out] before
    any occurrence of the later one. *)
Theorem parseUrlsFromText_no_duplicates :
  forall (new_URL : jsstring -> completion URL) (text : jsstring),
  exists out urls : list jsstring,
    collected new_URL text = Normal out
    /\ out = omap (accepted new_URL) (parts text)
    /\ parseUrlsFromText new_URL text = Normal urls
    /\ NoDup urls
    /\ (forall x : jsstring, x ∈ urls <-> x ∈ out)
    /\ (forall (i j : nat) (x y : jsstring),
          urls !! i = Some x -> urls !! j = Some y -> (i < j)%nat ->
          exists k : nat, out !! k = Some x /\ y ∉ take k out).
Proof.
  intros new_URL text.
  exists (omap (accepted new_URL) (parts text)),
         (new_Set (omap (accepted new_URL) (parts text))).
  split; [apply collected_eq|]. split; [reflexivity|].
  split; [apply parseUrlsFromText_eq|].
  split; [apply new_Set_NoDup|].
  split; [intros x; apply new_Set_elem_of|].
  intros i j x y. apply new_Set_order.
Qed.

(** A run on a text with a repeated URL, a rejected token, a foreign
    scheme and an upper-case scheme; the separators are spaces, a tab and
    a line feed. *)
Example parseUrlsFromText_run :
  parseUrlsFromText sample_new_URL
    (js "  http://a.example/x ftp://b.example/y nonsense " ++ [9%N]
     ++ js "http://a.example/x" ++ [10%N]
     ++ js "HTTP://a.example/x https://c.example/z ")
  = Normal [js "http://a.example/x"; js "https://c.example/z"].
Proof. vm_compute. reflexivity. Qed.

Example split_ws_run :
  split_ws (js " a  b ") = [ []; js "a"; js "b"; [] ]
  /\ split_ws [] = [ [] ]
  /\ parts (js " a  b ") = [js "a"; js "b"].
Proof. vm_compute. auto. Qed.

(** ** The bandwidth field of the settings editor *)

Lemma parse_digits_of_uint_acc (d : Decimal.uint) (acc : positive) :
  parse_digits (Z.pos acc) (uint_units d) = Z.pos (Pos.of_uint_acc d acc).
Proof.
  revert acc. induction d as [|d IH|d IH|d IH|d IH|d IH|d IH|d IH|d IH|d IH|d IH];
    intros acc; [reflexivity|..];
    cbn [uint_units parse_digits is_digit N.leb N.compare Pos.compare
         Pos.compare_cont andb Pos.of_uint_acc];
    rewrite <- IH; f_equal; unfold digit_value; cbn [Z.of_N]; lia.
Qed.

Lemma parse_digits_of_uint (d : Decimal.uint) :
  parse_digits 0 (uint_units d) = Z.of_N (Pos.of_uint d).
Proof.
  induction d as [|d IH|d IH|d IH|d IH|d IH|d IH|d IH|d IH|d IH|d IH];
    [reflexivity | exact IH |..];
    cbn [uint_units parse_digits is_digit N.leb N.compare Pos.compare
         Pos.compare_cont andb Pos.of_uint Z.of_N];
    rewrite <- parse_digits_of_uint_acc; reflexivity.
Qed.

Lemma uint_units_digits (d : Decimal.uint) :
  Forall (fun c => is_digit c = true) (uint_units d).
Proof. induction d; simpl; constructor; (reflexivity || assumption). Qed.

Lemma uint_units_to_uint_nonempty (n : N) : uint_units (N.to_uint n) <> [].
Proof.
  destruct n as [|p]; [discriminate|]. simpl.
  pose proof (DecimalPos.Unsigned.to_uint_nonnil p) as H.
  destruct (Pos.to_uint p); [contradiction | discriminate..].
Qed.

Lemma is_digit_cases (c : N) :
  is_digit c = true ->
  (c = 48 \/ c = 49 \/ c = 50 \/ c = 51 \/ c = 52 \/ c = 53 \/ c = 54
   \/ c = 55 \/ c = 56 \/ c = 57)%N.
Proof.
  unfold is_digit. intros H. apply andb_true_iff in H as [H1 H2].
  apply N.leb_le in H1, H2. lia.
Qed.

(** *** Rounding to a double *)

Arguments to_double : simpl never.

Lemma nearest_double_exact (x : Z) : 0 <= x <= 2 ^ 53 -> nearest_double x = x.
Proof.
  intros Hx. destruct (Z.eq_dec x (2 ^ 53)) as [->|Hne]; [vm_compute; reflexivity|].
  unfold nearest_double. destruct (Z.ltb_spec x (2 ^ 53)); [reflexivity | lia].
Qed.

Lemma nearest_double_pos (x : Z) : 0 < x -> 0 < nearest_double x.
Proof.
  intros Hx. unfold nearest_double.
  destruct (Z.ltb_spec x (2 ^ 53)) as [_|Hbig]; [exact Hx|].
  assert (He : 53 <= Z.log2 x).
  { change 53 with (Z.log2 (2 ^ 53)). apply Z.log2_le_mono. exact Hbig. }
  set (ulp := 2 ^ (Z.log2 x - 52)).
  assert (Hulp : 0 < ulp) by (apply Z.pow_pos_nonneg; lia).
  assert (Hle : ulp <= x).
  { pose proof (Z.log2_spec x Hx) as [Hlow _].
    etransitivity; [|exact Hlow]. apply Z.pow_le_mono_r; lia. }
  assert (Hq : 0 < x / ulp) by (apply Z.div_str_pos; lia).
  cbn zeta.
  destruct (2 * (x mod ulp) <? ulp); [apply Z.mul_pos_pos; lia|].
  destruct (ulp <? 2 * (x mod ulp)); [apply Z.mul_pos_pos; lia|].
  destruct (Z.even (x / ulp)); apply Z.mul_pos_pos; lia.
Qed.

Lemma sgn_mul_abs (z : Z) : Z.sgn z * Z.abs z = z.
Proof. destruct z; reflexivity. Qed.

(** Up to [2^53] in magnitude an integer is its own double. *)
Lemma to_double_exact (k : Z) : - 2 ^ 53 <= k <= 2 ^ 53 -> to_double k = Fin k.
Proof.
  intros Hk. unfold to_double.
  rewrite nearest_double_exact by lia.
  pose proof (Z.pow_lt_mono_r 2 53 1024 ltac:(lia) ltac:(lia) ltac:(lia)) as Hp.
  destruct (Z.leb_spec (2 ^ 1024) (Z.abs k)) as [Hover|_]; [lia|].
  rewrite sgn_mul_abs. reflexivity.
Qed.

Lemma to_double_positive (k : Z) :
  0 < k -> to_double k = PosInfinity \/ exists m, to_double k = Fin m /\ 0 < m.
Proof.
  intros Hk. unfold to_double.
  pose proof (nearest_double_pos (Z.abs k) ltac:(lia)) as Hm.
  destruct (2 ^ 1024 <=? nearest_double (Z.abs k)).
  - left. destruct (Z.ltb_spec k 0); [lia | reflexivity].
  - right. eexists. split; [reflexivity|].
    rewrite Z.sgn_pos by exact Hk. lia.
Qed.

Lemma to_double_not_positive (k : Z) :
  k <= 0 -> to_double k = NegInfinity \/ exists m, to_double k = Fin m /\ m <= 0.
Proof.
  intros Hk. destruct (Z.eq_dec k 0) as [->|Hne].
  { right. exists 0. split; [vm_compute; reflexivity | lia]. }
  unfold to_double.
  pose proof (nearest_double_pos (Z.abs k) ltac:(lia)) as Hm.
  destruct (2 ^ 1024 <=? nearest_double (Z.abs k)).
  - left. destruct (Z.ltb_spec k 0); [reflexivity | lia].
  - right. eexists. split; [reflexivity|].
    rewrite Z.sgn_neg by lia. lia.
Qed.

Lemma limit_of_kb_None (kb : JsNumber) :
  limit_of_kb kb = None
  <-> ~ (kb = PosInfinity \/ exists k, kb = Fin k /\ 0 < k).
Proof.
  destruct kb as [k| | |]; simpl.
  - destruct (Z.ltb_spec 0 k) as [Hpos|Hle]; split.
    + discriminate.
    + intros H. exfalso. apply H. right. eauto.
    + intros _ [H|(k' & [= <-] & H)]; [discriminate H | lia].
    + reflexivity.
  - split; [discriminate | intros H; exfalso; apply H; left; reflexivity].
  - split; [intros _ [H|(k & H & _)]; discriminate H | reflexivity].
  - split; [intros _ [H|(k & H & _)]; discriminate H | reflexivity].
Qed.

(** *** Reading numerals *)

(** On a non-empty string of digits [parseInt] reads the whole string. *)
Lemma parseInt10_digits (s : jsstring) :
  s <> [] -> Forall (fun c => is_digit c = true) s ->
  parseInt10 s = to_double (parse_digits 0 s).
Proof.
  intros Hne Hd. destruct s as [|c r]; [contradiction|].
  inversion Hd as [|? ? Hc _]; subst.
  apply is_digit_cases in Hc.
  destruct Hc as [->|[->|[->|[->|[->|[->|[->|[->|[->| ->]]]]]]]]];
    unfold parseInt10; cbn [trim_start is_js_whitespace]; simpl;
    rewrite ?Z.mul_1_l; reflexivity.
Qed.

Lemma parseInt10_minus_digits (s : jsstring) :
  s <> [] -> Forall (fun c => is_digit c = true) s ->
  parseInt10 (45%N :: s) = to_double (- parse_digits 0 s).
Proof.
  intros Hne Hd. destruct s as [|c r]; [contradiction|].
  inversion Hd as [|? ? Hc _]; subst.
  unfold parseInt10. cbn [trim_start]. change (is_js_whitespace 45) with false.
  cbn iota. rewrite Hc. cbn [parse_digits]. rewrite Hc.
  change (10 * 0 + digit_value c) with (digit_value c).
  replace (-1 * parse_digits (digit_value c) r)
    with (- parse_digits (digit_value c) r) by lia.
  reflexivity.
Qed.

Lemma parse_digits_to_uint (n : N) :
  parse_digits 0 (uint_units (N.to_uint n)) = Z.of_N n.
Proof.
  rewrite parse_digits_of_uint. f_equal.
  exact (DecimalN.Unsigned.of_to n).
Qed.

(** [parseInt] reads the decimal numeral of an integer as the double of
    that integer. *)
Lemma parseInt10_decimal (k : Z) : parseInt10 (decimal k) = to_double k.
Proof.
  unfold decimal. destruct (Z.ltb_spec k 0) as [Hneg|Hpos].
  - rewrite parseInt10_minus_digits
      by (apply uint_units_to_uint_nonempty || apply uint_units_digits).
    rewrite parse_digits_to_uint. f_equal. lia.
  - rewrite parseInt10_digits
      by (apply uint_units_to_uint_nonempty || apply uint_units_digits).
    rewrite parse_digits_to_uint. f_equal. lia.
Qed.

Lemma decimal_truthy (k : Z) : Boolean (decimal k) = true.
Proof.
  unfold decimal. destruct (k <? 0); [reflexivity|].
  pose proof (uint_units_to_uint_nonempty (Z.to_N k)) as H.
  destruct (uint_units _); [contradiction | reflexivity].
Qed.

Lemma bandwidth_onChange_decimal (k : Z) (s : SettingsSnapshot) :
  bandwidth_limit_bps (bandwidth_onChange (decimal k) s)
  = limit_of_kb (to_double k).
Proof.
  unfold bandwidth_onChange; cbn [bandwidth_limit_bps].
  rewrite decimal_truthy, parseInt10_decimal. reflexivity.
Qed.

Lemma limit_of_kb_exact (k : Z) :
  0 < k <= 2 ^ 53 -> limit_of_kb (to_double k) = Some (Fin (k * 1024)).
Proof.
  intros Hk. rewrite to_double_exact by lia. unfold limit_of_kb.
  destruct (Z.ltb_spec 0 k); [|lia].
  pose proof (Z.pow_lt_mono_r 2 63 1024 ltac:(lia) ltac:(lia) ltac:(lia)) as Hp.
  destruct (Z.leb_spec (2 ^ 1024) (k * 1024)); [lia | reflexivity].
Qed.

(** C7, as stated, fails: the entry [9007199254740993] ([2^53 + 1]) is
    read as the double [2^53], so [2^63] is stored, not [1024] times the
    entry, and the field shows [9007199254740992]. *)
Lemma bandwidth_entry_beyond_2_53 :
  bandwidth_limit_bps
    (bandwidth_onChange (decimal 9007199254740993) sample_settings)
  = Some (Fin 9223372036854775808)
  /\ bandwidth_input_value
       (bandwidth_onChange (decimal 9007199254740993) sample_settings)
     = Fin 9007199254740992
  /\ 9223372036854775808 <> 1024 * 9007199254740993
  /\ 9007199254740992 <> 9007199254740993.
Proof.
  split; [vm_compute; reflexivity|]. split; [vm_compute; reflexivity|].
  split; discriminate.
Qed.

(** C7, amended. Entering the numeral of an integer [k] with
    [0 < k <= 2^53] in the bandwidth field stores [1024 * k]; entering [0],
    the numeral of a negative integer, nothing, or anything [parseInt]
    cannot read stores [null]. The field shows the stored value
    floor-divided by 1024, and [0] for [null], so that it shows [k] again
    after the numeral of any [k] with [0 <= k <= 2^53] was entered. The
    stored limit is [null] exactly when the entry was not a positive
    number. (A longer numeral is first rounded to a double.) *)
Theorem bandwidth_field_round_trip :
  forall s : SettingsSnapshot,
    (forall k, 0 < k <= 2 ^ 53 ->
       bandwidth_limit_bps (bandwidth_onChange (decimal k) s)
       = Some (Fin (1024 * k)))
    /\ (forall k, k <= 0 ->
          bandwidth_limit_bps (bandwidth_onChange (decimal k) s) = None)
    /\ bandwidth_limit_bps (bandwidth_onChange [] s) = None
    /\ (forall v, parseInt10 v = NaN ->
          bandwidth_limit_bps (bandwidth_onChange v s) = None)
    /\ (forall b, bandwidth_limit_bps s = Some (Fin b) ->
          exists n, bandwidth_input_value s = Fin n
                    /\ 1024 * n <= b < 1024 * (n + 1))
    /\ (bandwidth_limit_bps s = None -> bandwidth_input_value s = Fin 0)
    /\ (forall k, 0 <= k <= 2 ^ 53 ->
          bandwidth_input_value (bandwidth_onChange (decimal k) s) = Fin k)
    /\ (forall k,
          bandwidth_limit_bps (bandwidth_onChange (decimal k) s) = None
          <-> k <= 0)
    /\ (forall v,
          bandwidth_limit_bps (bandwidth_onChange v s) = None
          <-> ~ (parseInt10 (if Boolean v then v else js "0") = PosInfinity
                 \/ exists k, parseInt10 (if Boolean v then v else js "0") = Fin k
                              /\ 0 < k))
    /\ (forall k,
          bandwidth_limit_bps (bandwidth_onChange (decimal k) s)
          = limit_of_kb (to_double k)).
Proof.
  intros s.
  assert (Hnonpos : forall k, k <= 0 -> limit_of_kb (to_double k) = None).
  { intros k Hk. apply limit_of_kb_None.
    destruct (to_double_not_positive k Hk) as [H|(m & H & Hm)]; rewrite H;
      intros [H'|(k' & H' & Hk')]; try discriminate H'.
    injection H' as <-. lia. }
  split.
  { intros k Hk. rewrite bandwidth_onChange_decimal, limit_of_kb_exact by lia.
    do 2 f_equal. lia. }
  split.
  { intros k Hk. rewrite bandwidth_onChange_decimal. apply Hnonpos, Hk. }
  split; [vm_compute; reflexivity|].
  split.
  { intros v Hv. unfold bandwidth_onChange; cbn [bandwidth_limit_bps].
    destruct v as [|c v]; [vm_compute; reflexivity|]. cbn [Boolean].
    rewrite Hv. reflexivity. }
  split.
  { intros b H. unfold bandwidth_input_value. rewrite H.
    change (default (Fin 0) (Some (Fin b))) with (Fin b). cbn iota.
    eexists. split; [reflexivity|].
    pose proof (Z.mul_div_le b 1024).
    pose proof (Z.mul_succ_div_gt b 1024). lia. }
  split.
  { intros H. unfold bandwidth_input_value. rewrite H. reflexivity. }
  split.
  { intros k Hk. unfold bandwidth_input_value.
    rewrite bandwidth_onChange_decimal.
    destruct (Z.eq_dec k 0) as [->|Hne]; [vm_compute; reflexivity|].
    rewrite limit_of_kb_exact by lia.
    change (default (Fin 0) (Some (Fin (k * 1024)))) with (Fin (k * 1024)).
    cbn iota. f_equal. apply Z.div_mul. discriminate. }
  split.
  { intros k. rewrite bandwidth_onChange_decimal. split.
    - intros H. destruct (Z.le_gt_cases k 0) as [Hle|Hpos]; [exact Hle|].
      exfalso. apply limit_of_kb_None in H. apply H.
      destruct (to_double_positive k ltac:(lia)) as [H'|H']; auto.
    - apply Hnonpos. }
  split.
  { intros v. unfold bandwidth_onChange; cbn [bandwidth_limit_bps].
    apply limit_of_kb_None. }
  intros k. apply bandwidth_onChange_decimal.
Qed.

Example bandwidth_entries :
  let stored v := bandwidth_limit_bps (bandwidth_onChange (js v) sample_settings) in
  stored "512"%string = Some (Fin 524288)
  /\ stored "0"%string = None
  /\ stored String.EmptyString = None
  /\ stored "-3"%string = None
  /\ stored "abc"%string = None
  /\ stored " 12kb"%string = Some (Fin 12288)
  /\ decimal 524288 = js "524288"
  /\ decimal (-3) = js "-3".
Proof. vm_compute. repeat split. Qed.

(** ** The settings object *)

Lemma SettingsSnapshot_keys_eq (s : SettingsSnapshot) :
  SettingsSnapshot_keys s
  = [ js "default_download_dir"; js "bandwidth_limit_bps";
      js "minimize_to_tray"; js "theme"; js "global_proxy_enabled";
      js "global_proxy_url"; js "local_api_port" ].
Proof. reflexivity. Qed.

(** C2, as stated, fails: neither the declared settings object nor the
    settings editor has a field for the local API token. *)
Lemma settings_without_api_token :
  (js "local_api_token" ∉ SettingsSnapshot_keys sample_settings)
  /\ (js "local_api_token" ∉ SettingsModal_keys).
Proof. split; by_computation. Qed.

(** C2, amended. The settings object declared for the UI has a field for
    each of: default download directory, global bandwidth limit (a number
    of bytes per second, or [null] when there is none), tray preference,
    theme, global proxy enabled flag, global proxy URL and local API port.
    The settings editor also binds a skin and a global hotkey field of the
    object it edits. No local API token field is declared or bound. *)
Theorem settings_fields_exposed :
  (forall s : SettingsSnapshot,
     [ js "default_download_dir"; js "bandwidth_limit_bps";
       js "global_proxy_enabled"; js "global_proxy_url";
       js "minimize_to_tray"; js "theme"; js "local_api_port" ]
     ⊆ SettingsSnapshot_keys s
     /\ ((js "bandwidth_limit_bps",
          match bandwidth_limit_bps s with Some n => JNum n | None => JNull end)
         ∈ SettingsSnapshot_entries s)
     /\ (js "local_api_token" ∉ SettingsSnapshot_keys s))
  /\ (js "skin" ∈ SettingsModal_keys)
  /\ (js "global_hotkey" ∈ SettingsModal_keys)
  /\ (js "local_api_token" ∉ SettingsModal_keys).
Proof.
  split.
  - intros s. rewrite SettingsSnapshot_keys_eq. split; [|split].
    + by_computation.
    + unfold SettingsSnapshot_entries, nullable.
      apply list_elem_of_further, list_elem_of_here.
    + by_computation.
  - repeat split; by_computation.
Qed.

(* ===================================================================== *)
(** * Further properties of the UI code                                   *)
(* ===================================================================== *)

(** ** Batch dialog and paste *)

Lemma replace_cr_by_lf_split (s : jsstring) :
  forall b cur, split_ws_from b cur (replace_cr_by_lf s) = split_ws_from b cur s.
Proof.
  induction s as [|c r IH]; intros b cur; [reflexivity|].
  simpl. destruct (N.eqb_spec c 13) as [->|Hc].
  - change (is_js_whitespace 10) with true. change (is_js_whitespace 13) with true.
    cbn iota. unfold replace_cr_by_lf in IH. rewrite IH. reflexivity.
  - unfold replace_cr_by_lf in IH. rewrite !IH. reflexivity.
Qed.

(** X1. Replacing carriage returns by line feeds before parsing, as the
    batch dialog does, changes nothing: a carriage return already
    separates tokens. *)
Theorem replace_cr_by_lf_redundant :
  forall (new_URL : jsstring -> completion URL) (text : jsstring),
    parseUrlsFromText new_URL (replace_cr_by_lf text)
    = parseUrlsFromText new_URL text.
Proof.
  intros new_URL text. unfold parseUrlsFromText, collected, parts, split_ws.
  rewrite replace_cr_by_lf_split. reflexivity.
Qed.

Lemma BatchModal_start_eq new_URL (text : jsstring) :
  BatchModal_start new_URL text
  = Normal
      (let urls := List.filter (fun u => includes u (js "://"))
                     (new_Set (omap (accepted new_URL) (parts text))) in
       if (length urls =? 0)%nat then None else Some urls).
Proof.
  unfold BatchModal_start. rewrite replace_cr_by_lf_redundant.
  rewrite parseUrlsFromText_eq. reflexivity.
Qed.

Lemma filter_NoDup_bool {A} (f : A -> bool) (l : list A) :
  NoDup l -> NoDup (List.filter f l).
Proof.
  induction 1 as [|x l Hx _ IH]; simpl; [constructor|].
  destruct (f x); [|exact IH]. constructor; [|exact IH].
  intros Hin. apply Hx. apply list_elem_of_In in Hin.
  apply filter_In in Hin as [Hin _]. apply list_elem_of_In, Hin.
Qed.

(** X2. [Start] of the batch dialog never throws. It starts nothing when
    no token of the text yields an http(s) URL whose serialisation has
    [://]; otherwise it hands over a non-empty, duplicate-free list that
    holds exactly those serialisations. *)
Theorem BatchModal_start_urls :
  forall (new_URL : jsstring -> completion URL) (text : jsstring),
  exists r : option (list jsstring),
    BatchModal_start new_URL text = Normal r
    /\ let kept x :=
         includes x (js "://") = true
         /\ exists p u, is_token p text /\ new_URL p = Normal u
                        /\ (protocol u = js "http:" \/ protocol u = js "https:")
                        /\ x = toString u in
       match r with
       | None => forall x, ~ kept x
       | Some urls => urls <> [] /\ NoDup urls /\ forall x, x ∈ urls <-> kept x
       end.
Proof.
  intros new_URL text. eexists. split; [apply BatchModal_start_eq|].
  cbn zeta.
  set (l := new_Set (omap (accepted new_URL) (parts text))).
  assert (Hl : forall x, x ∈ List.filter (fun u => includes u (js "://")) l
               <-> includes x (js "://") = true
                   /\ exists p u, is_token p text /\ new_URL p = Normal u
                        /\ (protocol u = js "http:" \/ protocol u = js "https:")
                        /\ x = toString u).
  { intros x. rewrite list_elem_of_In, filter_In, <- list_elem_of_In.
    unfold l. rewrite new_Set_elem_of, list_elem_of_omap. split.
    - intros [(p & Hp & Hacc) Hinc]. split; [exact Hinc|].
      apply accepted_Some in Hacc as (u & Hu & Hproto & ->).
      exists p, u. split; [apply parts_tokens, Hp|]. auto.
    - intros [Hinc (p & u & Htok & Hu & Hproto & ->)]. split; [|exact Hinc].
      exists p. split; [apply parts_tokens, Htok|].
      apply accepted_Some. exists u. auto. }
  destruct (List.filter _ l) as [|x0 urls] eqn:E.
  - cbn [length Nat.eqb]. intros x Hx. apply Hl in Hx. inversion Hx.
  - cbn [length Nat.eqb]. split; [discriminate|]. split; [|exact Hl].
    rewrite <- E. apply filter_NoDup_bool, new_Set_NoDup.
Qed.

(** X3. [onPaste] never throws. A paste is ignored (nothing invoked,
    default not prevented) while a modal is open, when the target is an
    input, a text area, a select or editable content, and when the
    clipboard text yields no URL. In every other case (no modal, no target
    or a target that is none of those, and a text that yields URLs) the
    default is prevented and [cmd_add_downloads] is invoked with the whole
    result of [parseUrlsFromText] on the clipboard text and with no
    destination. *)
Theorem onPaste_adds_parsed_urls :
  forall (new_URL : jsstring -> completion URL) (modalOpen : bool)
         (t : option PasteTarget) (clip : option jsstring),
  exists (o : PasteOutcome) (urls : list jsstring),
    onPaste new_URL modalOpen t clip = Normal o
    /\ parseUrlsFromText new_URL (default [] clip) = Normal urls
    /\ (default_prevented o = true <-> paste_invoked o <> None)
    /\ (modalOpen = true -> o = paste_ignored)
    /\ (forall t', t = Some t' ->
          (tag t' = Some (js "input") \/ tag t' = Some (js "textarea")
           \/ tag t' = Some (js "select") \/ isContentEditable t' = true
           \/ closest_editable t' = true) ->
          o = paste_ignored)
    /\ (urls = [] -> o = paste_ignored)
    /\ (modalOpen = false ->
        (forall t', t = Some t' ->
           tag t' <> Some (js "input") /\ tag t' <> Some (js "textarea")
           /\ tag t' <> Some (js "select") /\ isContentEditable t' = false
           /\ closest_editable t' = false) ->
        urls <> [] ->
        o = {| default_prevented := true;
               paste_invoked :=
                 Some (cmd_add_downloads
                         {| adr_urls := urls; adr_dest_dir := None |}) |})
    /\ (forall c, paste_invoked o = Some c ->
          urls <> []
          /\ c = cmd_add_downloads {| adr_urls := urls; adr_dest_dir := None |}).
Proof.
  intros new_URL modalOpen t clip. unfold onPaste.
  exists (if modalOpen then paste_ignored
          else if match t with
                  | None => false
                  | Some t0 =>
                      bool_decide (tag t0 = Some (js "input"))
                      || bool_decide (tag t0 = Some (js "textarea"))
                      || bool_decide (tag t0 = Some (js "select"))
                      || isContentEditable t0 || closest_editable t0
                  end then paste_ignored
          else if (length (new_Set (omap (accepted new_URL)
                                      (parts (default [] clip)))) =? 0)%nat
          then paste_ignored
          else {| default_prevented := true;
                  paste_invoked :=
                    Some (cmd_add_downloads
                            {| adr_urls := new_Set (omap (accepted new_URL)
                                             (parts (default [] clip)));
                               adr_dest_dir := None |}) |}),
         (new_Set (omap (accepted new_URL) (parts (default [] clip)))).
  rewrite parseUrlsFromText_eq. cbn [cbind].
  set (urls := new_Set (omap (accepted new_URL) (parts (default [] clip)))).
  set (editable := match t with None => false | Some t0 => _ end).
  split.
  { destruct modalOpen; [reflexivity|]. destruct editable; [reflexivity|].
    destruct (length urls =? 0)%nat; reflexivity. }
  split; [reflexivity|].
  assert (Hed : forall t', t = Some t' ->
            (editable = true
             <-> tag t' = Some (js "input") \/ tag t' = Some (js "textarea")
                 \/ tag t' = Some (js "select") \/ isContentEditable t' = true
                 \/ closest_editable t' = true)).
  { intros t' ->. unfold editable.
    rewrite !orb_true_iff, !bool_decide_eq_true. tauto. }
  assert (Hlen : (length urls =? 0)%nat = true <-> urls = []).
  { destruct urls; split; auto; discriminate. }
  split.
  { destruct modalOpen; [split; [discriminate | intros H; contradiction H; reflexivity]|].
    destruct editable; [split; [discriminate | intros H; contradiction H; reflexivity]|].
    destruct (length urls =? 0)%nat;
      [split; [discriminate | intros H; contradiction H; reflexivity]|].
    split; [discriminate | reflexivity]. }
  split; [intros ->; reflexivity|].
  split.
  { intros t' Ht Hcase. apply (Hed t' Ht) in Hcase. rewrite Hcase.
    destruct modalOpen; reflexivity. }
  split.
  { intros Hnil. apply Hlen in Hnil. rewrite Hnil.
    destruct modalOpen; [reflexivity|]. destruct editable; reflexivity. }
  split.
  { intros -> Ht Hne.
    assert (Hned : editable = false).
    { apply not_true_is_false. intros E.
      assert (Hshape : t = None \/ exists t', t = Some t')
        by (clear; destruct t; eauto).
      destruct Hshape as [Hnone | [t' Hsome]].
      - revert E. unfold editable. rewrite Hnone. discriminate.
      - apply (Hed t' Hsome) in E.
        destruct (Ht t' Hsome) as (H1 & H2 & H3 & H4 & H5).
        destruct E as [E|[E|[E|[E|E]]]]; congruence. }
    rewrite Hned.
    assert (Hpos : (length urls =? 0)%nat = false).
    { apply not_true_is_false. intros E. apply Hlen in E. contradiction. }
    rewrite Hpos. reflexivity. }
  intros c.
  destruct modalOpen; [discriminate|]. destruct editable; [discriminate|].
  assert (Hcases : (length urls =? 0)%nat = true
                   \/ ((length urls =? 0)%nat = false /\ urls <> [])).
  { destruct (length urls =? 0)%nat eqn:E; [left; reflexivity|].
    right. split; [reflexivity|]. intros Hnil. apply Hlen in Hnil.
    discriminate Hnil. }
  destruct Hcases as [E | [E Hne]]; rewrite E; [discriminate|].
  intros [= <-]. split; [exact Hne | reflexivity].
Qed.

(** ** The raw URL list of a batch request *)

Lemma split_ws_from_no_whitespace_prefix (x : jsstring) :
  forall cur s, no_whitespace x ->
    split_ws_from false cur (x ++ s) = split_ws_from false (cur ++ x) s.
Proof.
  induction x as [|c x IH]; intros cur s Hx.
  - rewrite app_nil_r. reflexivity.
  - inversion Hx as [|? ? Hc Hx']; subst. simpl. rewrite Hc.
    rewrite (IH _ _ Hx'), <- app_assoc. reflexivity.
Qed.

Lemma split_ws_from_after_separator (s : jsstring) (c : N) :
  is_js_whitespace c = false ->
  split_ws_from true [] (c :: s) = split_ws_from false [] (c :: s).
Proof. intros Hc. simpl. rewrite Hc. reflexivity. Qed.

(** A list of non-empty strings without whitespace, joined by line feeds,
    splits back into the list. *)
Lemma split_ws_join_lf (l : list jsstring) :
  forall x cur,
    Forall (fun y => y <> [] /\ no_whitespace y) (x :: l) ->
    split_ws_from false cur (join_lf (x :: l)) = (cur ++ x) :: l.
Proof.
  induction l as [|y l IH]; intros x cur Hall;
    inversion Hall as [|? ? [Hx Hxw] Hl]; subst.
  - cbn [join_lf]. rewrite <- (app_nil_r x) at 1.
    rewrite split_ws_from_no_whitespace_prefix by exact Hxw. reflexivity.
  - change (join_lf (x :: y :: l)) with (x ++ 10%N :: join_lf (y :: l)).
    rewrite split_ws_from_no_whitespace_prefix by exact Hxw.
    cbn [split_ws_from]. change (is_js_whitespace 10) with true. cbn iota.
    f_equal.
    assert (Hstart : exists c r, join_lf (y :: l) = c :: r
                                 /\ is_js_whitespace c = false).
    { inversion Hl as [|? ? [Hy Hyw] _]; subst.
      destruct y as [|c y']; [contradiction|].
      inversion Hyw as [|? ? Hc _]; subst.
      destruct l; cbn [join_lf]; eexists _, _; split; try reflexivity; exact Hc. }
    destruct Hstart as (c & r & Hj & Hc).
    pose proof (IH y [] Hl) as IH'. rewrite Hj in IH' |- *.
    rewrite (split_ws_from_after_separator r c Hc). exact IH'.
Qed.

Lemma parts_join_lf (l : list jsstring) :
  Forall (fun y => y <> [] /\ no_whitespace y) l -> parts (join_lf l) = l.
Proof.
  intros Hall. destruct l as [|x l]; [reflexivity|].
  unfold parts, split_ws. rewrite (split_ws_join_lf l x [] Hall). simpl app.
  induction Hall as [|y l' [Hy Hyw] _ IH]; [reflexivity|].
  cbn [List.map List.filter]. rewrite (trim_no_whitespace y Hyw).
  destruct y; [contradiction|]. cbn [Boolean]. f_equal. exact IH.
Qed.

Lemma new_Set_NoDup_id (l : list jsstring) : NoDup l -> new_Set l = l.
Proof.
  induction l as [|z l IH] using rev_ind; intros Hnd; [reflexivity|].
  apply NoDup_app in Hnd as (Hl & Hz & _).
  rewrite new_Set_snoc, (IH Hl). unfold Set_add.
  rewrite bool_decide_eq_false_2; [reflexivity|].
  intros Hin. apply (Hz z Hin). apply list_elem_of_here.
Qed.

Lemma omap_accepted_id new_URL (l : list jsstring) :
  Forall (fun x => accepted new_URL x = Some x) l ->
  omap (accepted new_URL) l = l.
Proof.
  induction 1 as [|x l Hx _ IH]; [reflexivity|].
  cbn [omap list_omap]. rewrite Hx. f_equal. exact IH.
Qed.

(** A duplicate-free list of strings that [new URL] serialises to
    themselves parses, joined by line feeds, to itself. *)
Lemma parseUrlsFromText_join_lf new_URL (l : list jsstring) :
  NoDup l ->
  Forall (fun x => x <> [] /\ no_whitespace x /\ accepted new_URL x = Some x) l ->
  parseUrlsFromText new_URL (join_lf l) = Normal l.
Proof.
  intros Hnd Hall. rewrite parseUrlsFromText_eq. f_equal.
  rewrite parts_join_lf
    by (eapply Forall_impl; [exact Hall | intros x (H1 & H2 & H3); auto]).
  rewrite omap_accepted_id
    by (eapply Forall_impl; [exact Hall | intros x (H1 & H2 & H3); exact H3]).
  apply new_Set_NoDup_id, Hnd.
Qed.

(** X4. Let [new URL] serialise every http(s) URL to a non-empty string
    without whitespace that it parses back to the same URL. Then the
    [raw_url_list] a batch request carries parses back, by
    [parseUrlsFromText], to exactly the [urls] of the request. *)
Theorem batch_raw_url_list_round_trip
    (new_URL : jsstring -> completion URL)
    (serialisation_stable :
       forall p u, p <> [] -> no_whitespace p -> new_URL p = Normal u ->
         protocol u = js "http:" \/ protocol u = js "https:" ->
         toString u <> [] /\ no_whitespace (toString u)
         /\ exists u', new_URL (toString u) = Normal u'
                       /\ protocol u' = protocol u
                       /\ toString u' = toString u)
    (text dest : jsstring) (useProxy : bool) (req : NewBatchRequest)
    (started : BatchModal_start_click new_URL text dest useProxy
               = Normal (Some (cmd_add_batch req))) :
  exists raw : jsstring,
    nbr_raw_url_list req = Some raw
    /\ parseUrlsFromText new_URL raw = Normal (nbr_urls req).
Proof.
  unfold BatchModal_start_click in started.
  rewrite BatchModal_start_eq in started. cbn [cbind] in started. cbn zeta in started.
  set (urls := List.filter (fun u => includes u (js "://"))
                 (new_Set (omap (accepted new_URL) (parts text)))) in started.
  destruct (length urls =? 0)%nat; [discriminate started|].
  injection started as <-. cbn [nbr_raw_url_list nbr_urls].
  eexists. split; [reflexivity|].
  apply parseUrlsFromText_join_lf.
  - apply filter_NoDup_bool, new_Set_NoDup.
  - apply Forall_forall. intros x Hx. unfold urls in Hx.
    apply list_elem_of_In, filter_In in Hx as [Hx _].
    apply list_elem_of_In, new_Set_elem_of, list_elem_of_omap in Hx
      as (p & Hp & Hacc).
    apply parts_tokens in Hp as (Hne & Hnw & _).
    apply accepted_Some in Hacc as (u & Hu & Hproto & ->).
    destruct (serialisation_stable p u Hne Hnw Hu Hproto)
      as (H1 & H2 & u' & Hu' & Hp' & Ht').
    split; [exact H1|]. split; [exact H2|].
    apply accepted_Some. exists u'. rewrite Hp', Ht'. auto.
Qed.

Lemma starts_with_app (t q : jsstring) : starts_with t (t ++ q) = true.
Proof.
  induction t as [|a t IH]; [reflexivity|].
  simpl. rewrite N.eqb_refl. exact IH.
Qed.

Lemma sample_new_URL_stable :
  forall p u, p <> [] -> no_whitespace p -> sample_new_URL p = Normal u ->
    protocol u = js "http:" \/ protocol u = js "https:" ->
    toString u <> [] /\ no_whitespace (toString u)
    /\ exists u', sample_new_URL (toString u) = Normal u'
                  /\ protocol u' = protocol u
                  /\ toString u' = toString u.
Proof.
  intros p u Hne Hnw Hu Hproto. unfold sample_new_URL in Hu.
  destruct (starts_with (js "http://") p) eqn:E1.
  { assert (u = {| protocol := js "http:"; toString := p |}) as ->
      by congruence.
    cbn [toString protocol].
    split; [exact Hne|]. split; [exact Hnw|].
    eexists. unfold sample_new_URL. rewrite E1. split; [reflexivity|]. auto. }
  destruct (starts_with (js "HTTP://") p) eqn:E2.
  { assert (u = {| protocol := js "http:";
                   toString := js "http://" ++ drop 7 p |}) as ->
      by congruence.
    cbn [toString protocol].
    split; [discriminate|]. split.
    - apply Forall_app. split; [by_computation | apply Forall_drop, Hnw].
    - eexists. unfold sample_new_URL. rewrite starts_with_app.
      split; [reflexivity|]. auto. }
  destruct (starts_with (js "https://") p) eqn:E3.
  { assert (u = {| protocol := js "https:"; toString := p |}) as ->
      by congruence.
    cbn [toString protocol].
    split; [exact Hne|]. split; [exact Hnw|].
    eexists. unfold sample_new_URL. rewrite E1, E2, E3.
    split; [reflexivity|]. auto. }
  destruct (starts_with (js "ftp://") p); [|discriminate Hu].
  assert (u = {| protocol := js "ftp:"; toString := p |}) as -> by congruence.
  destruct Hproto as [H|H]; discriminate H.
Qed.

Lemma batch_raw_url_list_round_trip_witness :
  let text := js "HTTP://a.example/x http://b.example/y ftp://c.example/z" in
  let urls := [js "http://a.example/x"; js "http://b.example/y"] in
  let req := {| nbr_name := None; nbr_dest_dir := js "C:/Downloads";
                nbr_raw_url_list := Some (join_lf urls); nbr_urls := urls;
                nbr_download_through_proxy := Some true |} in
  BatchModal_start_click sample_new_URL text (js "C:/Downloads") true
  = Normal (Some (cmd_add_batch req))
  /\ exists raw : jsstring,
       nbr_raw_url_list req = Some raw
       /\ parseUrlsFromText sample_new_URL raw = Normal (nbr_urls req).
Proof.
  intros text urls req.
  assert (H : BatchModal_start_click sample_new_URL text (js "C:/Downloads") true
              = Normal (Some (cmd_add_batch req))) by (vm_compute; reflexivity).
  split; [exact H|].
  exact (batch_raw_url_list_round_trip sample_new_URL sample_new_URL_stable
           text (js "C:/Downloads") true req H).
Defined.

(** ** Progress events and refreshes, composed *)

Lemma AppState_eq (st st' : AppState) :
  downloads st = downloads st' -> progressById st = progressById st' -> st = st'.
Proof. destruct st, st'; simpl; intros -> ->; reflexivity. Qed.

Lemma on_progress_batch_downloads payload st :
  downloads (on_progress_batch payload st) = downloads st.
Proof. unfold on_progress_batch. destruct (length _ =? 0)%nat; reflexivity. Qed.

Lemma last_for_app (i : jsstring) (b1 b2 : list DownloadProgressUpdate) :
  last_for i (b1 ++ b2)
  = match last_for i b2 with Some u => Some u | None => last_for i b1 end.
Proof. unfold last_for. rewrite List.filter_app. apply last_app. Qed.

(** X5. Two progress batches delivered one after the other leave the
    state that the single batch of both, in that order, leaves; and a
    batch delivered twice leaves the state of one delivery. *)
Theorem progress_batches_compose :
  forall (p1 p2 : option (list DownloadProgressUpdate)) (st : AppState),
    on_progress_batch p2 (on_progress_batch p1 st)
    = on_progress_batch (Some (default [] p1 ++ default [] p2)) st
    /\ on_progress_batch p1 (on_progress_batch p1 st) = on_progress_batch p1 st.
Proof.
  intros p1 p2 st.
  assert (Hseq : forall q1 q2,
            on_progress_batch q2 (on_progress_batch q1 st)
            = on_progress_batch (Some (default [] q1 ++ default [] q2)) st).
  { intros q1 q2. apply AppState_eq.
    - rewrite !on_progress_batch_downloads. reflexivity.
    - apply map_eq. intros i. rewrite !on_progress_batch_lookup.
      change (default [] (Some (default [] q1 ++ default [] q2)))
        with (default [] q1 ++ default [] q2).
      rewrite last_for_app. destruct (last_for i (default [] q2)); reflexivity. }
  split; [apply Hseq|].
  apply AppState_eq.
  - rewrite !on_progress_batch_downloads. reflexivity.
  - apply map_eq. intros i. rewrite !on_progress_batch_lookup.
    destruct (last_for i (default [] p1)); reflexivity.
Qed.

(** X6. A refresh never adds a progress entry, and refreshing twice with
    the same list is refreshing once. After a batch and then a refresh, an
    id has an entry exactly when the list has it as downloading or queued
    and the batch or the earlier state had one for it: the last update of
    the batch for the id, else the entry the state held. *)
Theorem refreshDownloads_composes :
  forall (lst : list DownloadRecord)
         (payload : option (list DownloadProgressUpdate)) (st : AppState),
    dom (progressById (refreshDownloads lst st)) ⊆ dom (progressById st)
    /\ refreshDownloads lst (refreshDownloads lst st) = refreshDownloads lst st
    /\ forall i : jsstring,
         progressById (refreshDownloads lst (on_progress_batch payload st)) !! i
         = if bool_decide (i ∈ active_ids lst)
           then match last_for i (default [] payload) with
                | Some u => Some u
                | None => progressById st !! i
                end
           else None.
Proof.
  intros lst payload st. split; [|split].
  - intros i Hi. apply elem_of_dom in Hi as [u Hu]. apply elem_of_dom.
    rewrite refreshDownloads_lookup in Hu.
    destruct (bool_decide _); [eauto | discriminate Hu].
  - apply AppState_eq; [reflexivity|]. apply map_eq. intros i.
    rewrite !refreshDownloads_lookup. destruct (bool_decide _); reflexivity.
  - intros i. rewrite refreshDownloads_lookup, on_progress_batch_lookup.
    reflexivity.
Qed.

(** ** The Delete key *)




(** ** The context menu *)

(** X8. Whatever the menu held before, once it is opened on a row every
    button acts on that row's download: Retry, Delete and "Add domain"
    carry its id, "Open folder" its destination, and "Add domain" its
    resolved URL when there is one, else its original URL. Each click
    hides the menu and keeps what it holds; without the menu element,
    opening does nothing. *)
Theorem context_menu_buttons_target_row :
  forall (x y : Z) (r : Row) (el : CtxMenu),
  exists m : CtxMenu,
    row_onContextMenu x y r (Some el) = Some m
    /\ style_display m = js "block"
    /\ (open_folder_onClick m).1
       = cmd_open_download_folder (Some (dest_dir (row_d r)))
    /\ (retry_onClick m).1 = cmd_retry_download (Some (id (row_d r)))
    /\ (delete_onClick m).1 = cmd_delete_download (Some (id (row_d r)))
    /\ (add_domain_onClick m).1
       = cmd_add_domain_to_proxy_and_retry (Some (id (row_d r)))
           (Some (default (original_url (row_d r)) (resolved_url (row_d r))))
    /\ (forall click,
          click ∈ [open_folder_onClick; retry_onClick; delete_onClick;
                   add_domain_onClick; pause_resume_onClick] ->
          exists m', (click m).2 = Some m'
                     /\ style_display m' = js "none"
                     /\ dataset_id m' = dataset_id m
                     /\ dataset_url m' = dataset_url m
                     /\ dataset_dest m' = dataset_dest m
                     /\ dataset_status m' = dataset_status m)
    /\ row_onContextMenu x y r None = None.
Proof.
  intros x y r el. eexists. split; [apply row_onContextMenu_Some|].
  split; [reflexivity|]. split; [reflexivity|]. split; [reflexivity|].
  split; [reflexivity|].
  split; [destruct (resolved_url (row_d r)); reflexivity|].
  split; [|reflexivity].
  intros click Hc. repeat (apply elem_of_cons in Hc as [->|Hc]);
    [..|inversion Hc]; eexists; (split; [reflexivity|]); repeat split.
Qed.

(** ** Formatting byte counts and speeds *)

Lemma Qfloor_unique (q : Q) (n : Z) :
  (inject_Z n <= q)%Q -> (q < inject_Z (n + 1))%Q -> Qfloor q = n.
Proof.
  intros H1 H2.
  pose proof (Qfloor_le q) as F1. pose proof (Qlt_floor q) as F2.
  assert (Qfloor q < n + 1).
  { rewrite Zlt_Qlt. eapply Qle_lt_trans; [exact F1 | exact H2]. }
  assert (n < Qfloor q + 1).
  { rewrite Zlt_Qlt. eapply Qle_lt_trans; [exact H1 | exact F2]. }
  lia.
Qed.

Lemma nearest_inject_Z (n : Z) : nearest (inject_Z n) = n.
Proof.
  unfold nearest. apply Qfloor_unique.
  - lra.
  - rewrite inject_Z_plus. change (inject_Z 1) with 1%Q. lra.
Qed.

(** [1024^k] *)
Lemma pow1024_succ (k : nat) :
  (inject_Z (1024 ^ Z.of_nat (S k)) == 1024 * inject_Z (1024 ^ Z.of_nat k))%Q.
Proof.
  rewrite Nat2Z.inj_succ, Z.pow_succ_r by lia.
  rewrite inject_Z_mult. reflexivity.
Qed.

Lemma pow1024_0 : (inject_Z (1024 ^ Z.of_nat 0) == 1)%Q.
Proof. reflexivity. Qed.

(** What the loop of [formatBytes] returns, started at [i <= 4] with
    enough fuel to reach 4. *)
Lemma scale_loop_spec (fuel : nat) :
  forall (v : Q) (i : nat),
    (i <= 4)%nat -> (4 <= fuel + i)%nat ->
    exists (v' : Q) (k : nat),
      scale_loop fuel v i = (v', (i + k)%nat)
      /\ (i + k <= 4)%nat
      /\ (v == v' * inject_Z (1024 ^ Z.of_nat k))%Q
      /\ (Qle_bool 1024 v' = false \/ (i + k)%nat = 4%nat)
      /\ (k = 0%nat /\ v' = v \/ (0 < k)%nat /\ (1 <= v')%Q).
Proof.
  induction fuel as [|fuel IH]; intros v i Hi Hfuel.
  - exists v, 0%nat. cbn [scale_loop]. rewrite Nat.add_0_r.
    split; [reflexivity|]. split; [exact Hi|].
    split; [rewrite pow1024_0; ring|].
    split; [right; lia | left; auto].
  - cbn [scale_loop]. change (length units - 1)%nat with 4%nat.
    destruct (Qle_bool 1024 v) eqn:Hv; cbn [andb].
    + destruct (Nat.ltb_spec i 4) as [Hlt|Hge].
      * destruct (IH (v / 1024)%Q (S i) ltac:(lia) ltac:(lia))
          as (v' & k & Heq & Hk & Hscale & Hexit & Hone).
        exists v', (S k). replace (i + S k)%nat with (S i + k)%nat by lia.
        split; [exact Heq|]. split; [exact Hk|].
        split.
        { rewrite pow1024_succ.
          assert (Hdiv : (v == 1024 * (v / 1024))%Q) by (field; discriminate).
          rewrite Hdiv at 1. rewrite Hscale. ring. }
        split; [exact Hexit|]. right. split; [lia|].
        apply Qle_bool_iff in Hv.
        destruct Hone as [[-> ->]|[_ H1]]; [|exact H1].
        apply Qle_shift_div_l; lra.
      * exists v, 0%nat. rewrite Nat.add_0_r.
        split; [reflexivity|]. split; [exact Hi|].
        split; [rewrite pow1024_0; ring|].
        split; [right; lia | left; auto].
    + exists v, 0%nat. rewrite Nat.add_0_r.
      split; [reflexivity|]. split; [exact Hi|].
      split; [rewrite pow1024_0; ring|].
      split; [left; exact Hv | left; auto].
Qed.

(** X9. [formatBytes] shows ["0 B"] for a negative number. Otherwise
    (below [10^21], where [toFixed] prints plain digits) it
    shows a value [v] and a unit of index [i] in [B, KB, MB, GB, TB] (never
    beyond the table) with [n = v * 1024^i]: the loop has stopped, so
    [v < 1024] unless the unit is TB, and [v >= 1] unless the unit is B;
    bytes are shown rounded to an integer, the other units with one
    decimal. *)
Theorem formatBytes_unit :
  forall n : Q,
    ((n < 0)%Q -> formatBytes n = js "0 B")
    /\ ((0 <= n)%Q -> (n < inject_Z (10 ^ 21))%Q ->
        exists (v : Q) (i : nat) (u : jsstring),
          units !! i = Some u
          /\ (n == v * inject_Z (1024 ^ Z.of_nat i))%Q
          /\ ((i < 4)%nat -> (v < 1024)%Q)
          /\ ((0 < i)%nat -> (1 <= v)%Q)
          /\ (i = 0%nat <-> (n < 1024)%Q)
          /\ formatBytes n
             = (if (i =? 0)%nat then decimal (nearest v)
                else decimal (nearest (v * 10) / 10) ++ js "."
                     ++ decimal (nearest (v * 10) mod 10))
               ++ js " " ++ u).
Proof.
  intros n. split.
  - intros Hn. unfold formatBytes.
    destruct (Qle_bool 0 n) eqn:E; [|reflexivity].
    apply Qle_bool_iff in E. lra.
  - intros Hn _. unfold formatBytes.
    assert (E : Qle_bool 0 n = true) by (apply Qle_bool_iff, Hn).
    rewrite E. cbn [negb].
    destruct (scale_loop_spec (length units) n 0 ltac:(lia) ltac:(simpl; lia))
      as (v & k & Heq & Hk & Hscale & Hexit & Hone).
    rewrite Heq. cbn [Nat.add] in *.
    assert (Hu : exists u, units !! k = Some u).
    { apply lookup_lt_is_Some. simpl. lia. }
    destruct Hu as [u Hu]. exists v, k, u.
    assert (Hv0 : (0 <= v)%Q).
    { destruct Hone as [[_ ->]|[_ H1]]; lra. }
    assert (Ev : Qle_bool 0 v = true) by (apply Qle_bool_iff, Hv0).
    split; [exact Hu|]. split; [exact Hscale|].
    split.
    { intros Hlt. destruct Hexit as [Hexit|Hexit]; [|lia].
      destruct (Qlt_le_dec v 1024) as [H|H]; [exact H|].
      apply Qle_bool_iff in H. congruence. }
    split.
    { intros Hpos. destruct Hone as [[-> _]|[_ H1]]; [lia | exact H1]. }
    split.
    { split.
      - intros ->. rewrite pow1024_0 in Hscale.
        destruct Hexit as [Hexit|Hexit]; [|discriminate Hexit].
        destruct (Qlt_le_dec v 1024) as [H|H].
        + lra.
        + apply Qle_bool_iff in H. congruence.
      - intros Hlt. destruct Hone as [[-> _]|[Hpos H1]]; [reflexivity|].
        exfalso. destruct k as [|k]; [lia|].
        rewrite pow1024_succ in Hscale.
        assert (Hp : (1 <= inject_Z (1024 ^ Z.of_nat k))%Q).
        { change 1%Q with (inject_Z 1). rewrite <- Zle_Qle.
          pose proof (Z.pow_pos_nonneg 1024 (Z.of_nat k)). lia. }
        set (P := inject_Z (1024 ^ Z.of_nat k)) in *.
        assert (HvP : (1 * 1 <= v * P)%Q)
          by (apply Qmult_le_compat_nonneg; split; lra).
        assert (Hn' : (n == 1024 * (v * P))%Q) by (rewrite Hscale; ring).
        lra. }
    rewrite (nth_lookup_Some _ _ _ _ Hu).
    unfold toFixed. rewrite Ev. cbn [negb].
    destruct k; reflexivity.
Qed.

(** X10. A whole number of bytes below 1024 is shown exactly, in bytes. *)
Theorem formatBytes_small (n : Z) (nonneg : 0 <= n) (small : n < 1024) :
  formatBytes (inject_Z n) = decimal n ++ js " B".
Proof.
  unfold formatBytes.
  assert (E : Qle_bool 0 (inject_Z n) = true).
  { apply Qle_bool_iff. change 0%Q with (inject_Z 0). rewrite <- Zle_Qle. exact nonneg. }
  rewrite E. cbn [negb].
  assert (E' : Qle_bool 1024 (inject_Z n) = false).
  { destruct (Qle_bool 1024 (inject_Z n)) eqn:H; [|reflexivity].
    apply Qle_bool_iff in H. change 1024%Q with (inject_Z 1024) in H.
    rewrite <- Zle_Qle in H. lia. }
  cbn [length units scale_loop]. rewrite E'. cbn [andb Nat.eqb nth].
  unfold toFixed. rewrite E. cbn [negb app]. rewrite nearest_inject_Z. reflexivity.
Qed.

Lemma formatBytes_small_witness : formatBytes (inject_Z 512) = js "512 B".
Proof. exact (formatBytes_small 512 ltac:(lia) ltac:(lia)). Defined.

(** ** Durations *)

Lemma Qfloor_nonneg (q : Q) : (0 <= q)%Q -> 0 <= Qfloor q.
Proof.
  intros H. change 0 with (Qfloor (inject_Z 0)) at 1.
  apply Qfloor_resp_le. exact H.
Qed.

Lemma Qfloor_nonpos (q : Q) : (q <= 0)%Q -> Qfloor q <= 0.
Proof.
  intros H. change 0 with (Qfloor (inject_Z 0)).
  apply Qfloor_resp_le. exact H.
Qed.

(** X11. For a positive number of seconds [formatEta] and
    [formatDuration] print the same text. For zero, a negative number or
    no number [formatEta] prints the dash, and [formatDuration] prints
    ["0s"] for zero and for a negative number. *)
Theorem formatEta_formatDuration :
  forall q : Q,
    ((0 < q)%Q -> formatEta (Some q) = formatDuration q)
    /\ ((q <= 0)%Q -> formatEta (Some q) = DASH /\ formatDuration q = js "0s")
    /\ formatEta None = DASH.
Proof.
  intros q. split; [|split; [|reflexivity]].
  - intros Hq. unfold formatEta, formatDuration.
    assert (E1 : Qeq_bool q 0 = false).
    { destruct (Qeq_bool q 0) eqn:E; [|reflexivity].
      apply Qeq_bool_iff in E. lra. }
    assert (E2 : Qle_bool q 0 = false).
    { destruct (Qle_bool q 0) eqn:E; [|reflexivity].
      apply Qle_bool_iff in E. lra. }
    rewrite E1, E2. cbn [orb].
    rewrite (Z.max_r 0 (Qfloor q)) by (apply Qfloor_nonneg; lra).
    reflexivity.
  - intros Hq. split.
    + unfold formatEta.
      assert (E2 : Qle_bool q 0 = true) by (apply Qle_bool_iff, Hq).
      rewrite E2, orb_true_r. reflexivity.
    + unfold formatDuration.
      rewrite (Z.max_l 0 (Qfloor q)) by (apply Qfloor_nonpos, Hq).
      reflexivity.
Qed.


(** X13. Whatever [Date.parse] answers, [tookText] prints a duration
    exactly when both timestamps are present and not empty, both parse,
    and the completion is strictly later than the start; the duration is
    then that of the difference in seconds. In every other case it prints
    the dash. *)
Theorem tookText_cases :
  forall (Date_parse : jsstring -> option Z) (d : DownloadRecord),
    (forall sa sb a b,
       started_at d = Some sa -> completed_at d = Some sb ->
       sa <> [] -> sb <> [] ->
       Date_parse sa = Some a -> Date_parse sb = Some b -> a < b ->
       tookText Date_parse d
       = js "took " ++ formatDuration (inject_Z (b - a) / 1000))
    /\ (tookText Date_parse d = js "took " ++ DASH
        \/ exists sa sb a b,
             started_at d = Some sa /\ completed_at d = Some sb
             /\ sa <> [] /\ sb <> []
             /\ Date_parse sa = Some a /\ Date_parse sb = Some b /\ a < b).
Proof.
  intros Date_parse d. unfold tookText. split.
  - intros sa sb a b Hsa Hsb Hna Hnb Ha Hb Hlt. rewrite Hsa, Hsb.
    destruct sa as [|c sa]; [contradiction|].
    destruct sb as [|c' sb]; [contradiction|].
    cbn [falsy_string Boolean negb orb].
    change (default [] (Some (c :: sa))) with (c :: sa).
    change (default [] (Some (c' :: sb))) with (c' :: sb).
    rewrite Ha, Hb. destruct (Z.leb_spec b a); [lia | reflexivity].
  - destruct (started_at d) as [[|c sa]|]; [left; reflexivity | | left; reflexivity].
    destruct (completed_at d) as [[|c' sb]|]; [left; reflexivity | | left; reflexivity].
    cbn [falsy_string Boolean negb orb].
    change (default [] (Some (c :: sa))) with (c :: sa).
    change (default [] (Some (c' :: sb))) with (c' :: sb).
    destruct (Date_parse (c :: sa)) as [a|] eqn:Ha; [|left; reflexivity].
    destruct (Date_parse (c' :: sb)) as [b|] eqn:Hb; [|left; reflexivity].
    destruct (Z.leb_spec b a) as [Hle|Hlt]; [left; reflexivity|].
    right. exists (c :: sa), (c' :: sb), a, b.
    repeat split; auto; discriminate.
Qed.

(** ** Whether the batch dialog offers the proxy *)

Lemma trim_start_suffix (s : jsstring) :
  exists pre, s = pre ++ trim_start s
              /\ Forall (fun c => is_js_whitespace c = true) pre
              /\ (trim_start s = []
                  \/ exists c r, trim_start s = c :: r /\ is_js_whitespace c = false).
Proof.
  induction s as [|c s (pre & Heq & Hpre & Hhead)].
  - exists []. repeat split; auto.
  - simpl. destruct (is_js_whitespace c) eqn:Hc.
    + exists (c :: pre). split; [simpl; f_equal; exact Heq|].
      split; [constructor; assumption | exact Hhead].
    + exists []. split; [reflexivity|]. split; [constructor|].
      right. eauto.
Qed.

Lemma trim_start_nil_iff (s : jsstring) :
  trim_start s = [] <-> Forall (fun c => is_js_whitespace c = true) s.
Proof.
  destruct (trim_start_suffix s) as (pre & Heq & Hpre & Hhead). split.
  - intros H. rewrite H, app_nil_r in Heq. rewrite Heq. exact Hpre.
  - intros Hall. destruct Hhead as [H|(c & r & Hr & Hc)]; [exact H|].
    exfalso. rewrite Heq, Hr in Hall. apply Forall_app in Hall as [_ Hall].
    inversion Hall as [|? ? Hc' _]; subst. rewrite Hc in Hc'. discriminate.
Qed.

(** [trim] leaves nothing exactly of a string of whitespace. *)
Lemma trim_nil_iff (s : jsstring) :
  trim s = [] <-> Forall (fun c => is_js_whitespace c = true) s.
Proof.
  unfold trim. rewrite <- trim_start_nil_iff.
  split.
  - intros H. apply (f_equal (@rev N)) in H. rewrite rev_involutive in H.
    simpl in H. apply trim_start_nil_iff in H.
    apply Forall_rev in H. rewrite rev_involutive in H.
    destruct (trim_start_suffix s) as (_ & _ & _ & [Hs|(c & r & Hr & Hc)]);
      [exact Hs|].
    exfalso. rewrite Hr in H. inversion H as [|? ? Hc' _]; subst.
    rewrite Hc in Hc'. discriminate.
  - intros ->. reflexivity.
Qed.

Lemma blank_or_not (u : jsstring) :
  Forall (fun c => is_js_whitespace c = true) u
  \/ exists c, c ∈ u /\ is_js_whitespace c = false.
Proof.
  induction u as [|c u [IH|(c' & Hc' & Hnw)]].
  - left. constructor.
  - destruct (is_js_whitespace c) eqn:E.
    + left. constructor; assumption.
    + right. exists c. split; [apply list_elem_of_here | exact E].
  - right. exists c'. split; [apply list_elem_of_further, Hc' | exact Hnw].
Qed.

(** X14. The batch dialog offers "Download through proxy" exactly when
    the settings hold a proxy URL with at least one code unit that is not
    whitespace: no URL, an empty one and a blank one all disable it. *)
Theorem canUseProxy_iff :
  forall s : SettingsSnapshot,
    canUseProxy s = true
    <-> exists u c, global_proxy_url s = Some u /\ c ∈ u
                    /\ is_js_whitespace c = false.
Proof.
  intros s. unfold canUseProxy. destruct (global_proxy_url s) as [u|].
  2:{ split; [discriminate | intros (u & c & H & _); discriminate H]. }
  split.
  - intros H. apply andb_true_iff in H as [_ Hlen].
    destruct (blank_or_not u) as [Hblank|(c & Hc & Hnw)].
    + apply trim_nil_iff in Hblank. rewrite Hblank in Hlen. discriminate Hlen.
    + exists u, c. auto.
  - intros (u' & c & [= <-] & Hc & Hnw).
    destruct (trim u) as [|c0 t] eqn:Et.
    + exfalso. apply trim_nil_iff in Et. rewrite Forall_forall in Et.
      rewrite (Et c Hc) in Hnw. discriminate.
    + destruct u; [inversion Hc | reflexivity].
Qed.

(** ** The status bar when nothing is active *)

Lemma totalBps_no_progress (l : list DownloadRecord) (t : Q) :
  foldl (fun t d =>
           match (∅ : gmap (list N) DownloadProgressUpdate) !! id d with
           | None => t
           | Some u =>
               if bool_decide (p_status u = DOWNLOADING)
               then (t + p_speed_bps u)%Q else t
           end) t l = t.
Proof.
  revert t. induction l as [|d l IH]; intros t; [reflexivity|].
  simpl foldl. rewrite lookup_empty. apply IH.
Qed.

(** X15. After a refresh with a list in which no download is downloading
    or queued, the progress map is empty, the total speed of the status
    bar is 0 and it is shown as ["0 B/s"], whatever progress the state held
    before. In general the status bar prints a speed as [formatSpeed]
    does. *)
Theorem statusbar_idle_after_refresh
    (lst : list DownloadRecord) (st : AppState)
    (idle : forall d, d ∈ lst -> status d <> DOWNLOADING /\ status d <> QUEUED) :
  let st' := refreshDownloads lst st in
  progressById st' = ∅
  /\ totalBps (statusSummary st') = 0%Q
  /\ formatStatusbarSpeed (totalBps (statusSummary st')) = js "0 B/s"
  /\ forall bps, formatStatusbarSpeed bps = formatSpeed bps.
Proof.
  intros st'.
  assert (Hempty : progressById st' = ∅).
  { apply map_eq. intros i. unfold st'.
    rewrite refreshDownloads_lookup, lookup_empty.
    rewrite bool_decide_eq_false_2; [reflexivity|].
    intros Hi. apply active_ids_spec in Hi as (d & Hd & _ & Hact).
    destruct (idle d Hd) as [H1 H2]. destruct Hact; contradiction. }
  assert (Hzero : totalBps (statusSummary st') = 0%Q).
  { unfold statusSummary; cbn [totalBps]. rewrite Hempty.
    apply totalBps_no_progress. }
  split; [exact Hempty|]. split; [exact Hzero|].
  split; [rewrite Hzero; reflexivity|].
  intros bps. unfold formatStatusbarSpeed, formatSpeed.
  destruct (Qle_bool bps 0); reflexivity.
Qed.

Lemma statusbar_idle_after_refresh_witness :
  let lst := [sample_download (js "d1") COMPLETED; sample_download (js "d2") PAUSED] in
  let st := {| downloads := [];
               progressById :=
                 {[ js "d1" := sample_update (js "d1") DOWNLOADING 990 ]} |} in
  totalBps (statusSummary
              {| downloads := lst; progressById := progressById st |}) = 512%Q
  /\ totalBps (statusSummary (refreshDownloads lst st)) = 0%Q
  /\ formatStatusbarSpeed (totalBps (statusSummary (refreshDownloads lst st)))
     = js "0 B/s".
Proof.
  intros lst st. split; [reflexivity|].
  assert (idle : forall d, d ∈ lst -> status d <> DOWNLOADING /\ status d <> QUEUED).
  { intros d Hd. unfold lst in Hd.
    apply elem_of_cons in Hd as [->|Hd];
      [|apply elem_of_cons in Hd as [->|Hd]; [|inversion Hd]];
      split; discriminate. }
  pose proof (statusbar_idle_after_refresh lst st idle) as (_ & H1 & H2 & _).
  split; [exact H1 | exact H2].
Defined.

(** ** The proxy rules of the settings editor *)

Lemma filter_other_ids (i : Z) (l : list ProxyRule) :
  Forall (fun x => pr_id x <> i) l ->
  List.filter (fun x => negb (pr_id x =? i)) l = l.
Proof.
  induction 1 as [|x l Hx _ IH]; [reflexivity|].
  simpl. destruct (Z.eqb_spec (pr_id x) i); [contradiction|].
  cbn [negb]. f_equal. exact IH.
Qed.

(** X16. [Delete] on a placeholder rule (negative id) sends nothing to
    the core and removes from the editor exactly the proxy rules with that
    id, leaving the order of the others and the header and mirror rules
    alone; on any other rule it sends [cmd_delete_proxy_rule] with the
    rule's id and takes the rules the core answers. [Save] sends the
    rule's id only when it is positive, and [null] otherwise, with the
    rule's other fields as they are. *)
Theorem proxy_rule_delete_and_save :
  forall (HeaderRule MirrorRule : Type) (pr : ProxyRule)
         (rr r : RulesSnapshot HeaderRule MirrorRule),
    (pr_id pr < 0 ->
       (proxy_delete_onClick _ _ pr rr r).1 = None
       /\ header_rules _ _ (proxy_delete_onClick _ _ pr rr r).2 = header_rules _ _ r
       /\ mirror_rules _ _ (proxy_delete_onClick _ _ pr rr r).2 = mirror_rules _ _ r
       /\ (forall x, x ∈ proxy_rules _ _ (proxy_delete_onClick _ _ pr rr r).2
                     <-> x ∈ proxy_rules _ _ r /\ pr_id x <> pr_id pr)
       /\ proxy_rules _ _ (proxy_delete_onClick _ _ pr rr r).2
          `sublist_of` proxy_rules _ _ r)
    /\ (0 <= pr_id pr ->
          proxy_delete_onClick _ _ pr rr r
          = (Some (cmd_delete_proxy_rule (pr_id pr)), rr))
    /\ exists args,
         proxy_save_onClick pr = cmd_upsert_proxy_rule args
         /\ (forall i, up_id args = Some i <-> i = pr_id pr /\ 0 < i)
         /\ up_pattern args = pr_pattern pr
         /\ up_enabled args = pr_enabled pr
         /\ up_use_proxy args = pr_use_proxy pr
         /\ up_proxy_url_override args = pr_proxy_url_override pr.
Proof.
  intros HeaderRule MirrorRule pr rr r. split; [|split].
  - intros Hneg. unfold proxy_delete_onClick.
    destruct (Z.ltb_spec (pr_id pr) 0) as [_|Hge]; [|lia].
    cbn [fst snd with_proxy_rules proxy_rules header_rules mirror_rules].
    split; [reflexivity|]. split; [reflexivity|]. split; [reflexivity|]. split.
    + intros x. rewrite list_elem_of_In, filter_In, <- list_elem_of_In.
      destruct (Z.eqb_spec (pr_id x) (pr_id pr)); cbn [negb];
        split; intros [H1 H2]; split; auto; try discriminate; contradiction.
    + induction (proxy_rules _ _ r) as [|x l IH]; [constructor|].
      simpl. destruct (negb _); [apply sublist_skip | apply sublist_cons]; exact IH.
  - intros Hge. unfold proxy_delete_onClick.
    destruct (Z.ltb_spec (pr_id pr) 0) as [Hlt|_]; [lia | reflexivity].
  - eexists. split; [reflexivity|]. cbn.
    split; [|repeat split].
    intros i. destruct (Z.ltb_spec 0 (pr_id pr)) as [Hpos|Hle]; split.
    + intros [= <-]. auto.
    + intros [-> _]. reflexivity.
    + discriminate.
    + intros [-> H]. lia.
Qed.

(** X17. A rule added by "Add proxy rule" at a time [now > 0] is a
    placeholder: saving it sends no id, and deleting it right away sends
    nothing to the core and gives back the rules as they were, provided no
    rule already had the id [-now]. *)
Theorem add_then_delete_proxy_rule
    (HeaderRule MirrorRule : Type) (now : Z)
    (rr r : RulesSnapshot HeaderRule MirrorRule)
    (clock : 0 < now)
    (fresh : Forall (fun x => pr_id x <> - now) (proxy_rules _ _ r)) :
  exists pr : ProxyRule,
    proxy_rules _ _ (add_proxy_rule_onClick _ _ now r) = pr :: proxy_rules _ _ r
    /\ pr_id pr = - now
    /\ (exists args, proxy_save_onClick pr = cmd_upsert_proxy_rule args
                     /\ up_id args = None)
    /\ proxy_delete_onClick _ _ pr rr (add_proxy_rule_onClick _ _ now r)
       = (None, r).
Proof.
  eexists. split; [reflexivity|]. split; [reflexivity|]. split.
  - eexists. split; [reflexivity|]. cbn.
    destruct (Z.ltb_spec 0 (- now)); [lia | reflexivity].
  - unfold proxy_delete_onClick. cbn [pr_id].
    destruct (Z.ltb_spec (- now) 0) as [_|Hge]; [|lia].
    f_equal. destruct r as [pl hl ml].
    unfold add_proxy_rule_onClick, with_proxy_rules.
    cbn [proxy_rules header_rules mirror_rules List.filter pr_id] in *.
    rewrite Z.eqb_refl. cbn [negb].
    rewrite (filter_other_ids (- now) _ fresh). reflexivity.
Qed.

Lemma add_then_delete_proxy_rule_witness :
  let stored := {| pr_id := 3; pr_pattern := js "*.example.org";
                   pr_enabled := true; pr_use_proxy := true;
                   pr_proxy_url_override := None |} in
  let r : RulesSnapshot unit unit :=
    {| proxy_rules := [stored]; header_rules := []; mirror_rules := [] |} in
  exists pr : ProxyRule,
    proxy_rules _ _ (add_proxy_rule_onClick _ _ 1766700000000 r)
    = pr :: proxy_rules _ _ r
    /\ pr_id pr = - 1766700000000
    /\ (exists args, proxy_save_onClick pr = cmd_upsert_proxy_rule args
                     /\ up_id args = None)
    /\ proxy_delete_onClick _ _ pr r (add_proxy_rule_onClick _ _ 1766700000000 r)
       = (None, r).
Proof.
  intros stored r.
  apply (add_then_delete_proxy_rule unit unit 1766700000000 r r).
  - lia.
  - constructor; [discriminate | constructor].
Defined.

(** X18. Editing the pattern of a proxy rule keeps the ids, the order
    and the number of the proxy rules and leaves the header and mirror
    rules alone; it sets the pattern of every rule with the edited id and
    changes no other field of any rule. Edits of the pattern, of "enabled"
    and of "use proxy" commute, whichever rules they are made on. *)
Theorem proxy_rule_edits :
  forall (HeaderRule MirrorRule : Type) (pr pr' : ProxyRule) (v : jsstring)
         (c c' : bool) (r : RulesSnapshot HeaderRule MirrorRule),
    List.map pr_id (proxy_rules _ _ (proxy_pattern_onChange _ _ pr v r))
    = List.map pr_id (proxy_rules _ _ r)
    /\ header_rules _ _ (proxy_pattern_onChange _ _ pr v r) = header_rules _ _ r
    /\ mirror_rules _ _ (proxy_pattern_onChange _ _ pr v r) = mirror_rules _ _ r
    /\ (forall k x,
          proxy_rules _ _ r !! k = Some x ->
          exists x',
            proxy_rules _ _ (proxy_pattern_onChange _ _ pr v r) !! k = Some x'
            /\ pr_id x' = pr_id x
            /\ pr_pattern x' = (if pr_id x =? pr_id pr then v else pr_pattern x)
            /\ pr_enabled x' = pr_enabled x
            /\ pr_use_proxy x' = pr_use_proxy x
            /\ pr_proxy_url_override x' = pr_proxy_url_override x)
    /\ proxy_pattern_onChange _ _ pr v (proxy_enabled_onChange _ _ pr' c r)
       = proxy_enabled_onChange _ _ pr' c (proxy_pattern_onChange _ _ pr v r)
    /\ proxy_pattern_onChange _ _ pr v (proxy_use_proxy_onChange _ _ pr' c r)
       = proxy_use_proxy_onChange _ _ pr' c (proxy_pattern_onChange _ _ pr v r)
    /\ proxy_enabled_onChange _ _ pr c (proxy_use_proxy_onChange _ _ pr' c' r)
       = proxy_use_proxy_onChange _ _ pr' c' (proxy_enabled_onChange _ _ pr c r).
Proof.
  intros HeaderRule MirrorRule pr pr' v c c' r. destruct r as [pl hl ml].
  unfold proxy_pattern_onChange, proxy_enabled_onChange,
    proxy_use_proxy_onChange, with_proxy_rules.
  cbn [proxy_rules header_rules mirror_rules].
  split.
  { rewrite List.map_map. apply List.map_ext. intros x.
    destruct (pr_id x =? pr_id pr); reflexivity. }
  split; [reflexivity|]. split; [reflexivity|]. split.
  { intros k x Hk.
    change (List.map ?f pl) with (f <$> pl).
    rewrite list_lookup_fmap, Hk. cbn [fmap option_fmap option_map].
    eexists. split; [reflexivity|].
    destruct (pr_id x =? pr_id pr); repeat split. }
  repeat split; f_equal; rewrite !List.map_map; apply List.map_ext; intros x;
    destruct (pr_id x =? pr_id pr) eqn:E1;
    destruct (pr_id x =? pr_id pr') eqn:E2;
    cbn [pr_id pr_pattern pr_enabled pr_use_proxy pr_proxy_url_override];
    rewrite ?E1, ?E2; reflexivity.
Qed.

(** ** Texts put together, and updates that arrive late *)

Lemma parts_split_ws (text : jsstring) :
  parts text = List.filter Boolean (split_ws text).
Proof.
  unfold parts. f_equal.
  pose proof (split_ws_from_no_whitespace text false [] ltac:(constructor)) as H.
  unfold split_ws. induction H as [|x l Hx _ IH]; [reflexivity|].
  simpl. rewrite (trim_no_whitespace x Hx), IH. reflexivity.
Qed.

Lemma split_ws_from_leading_separator (s : jsstring) :
  List.filter Boolean (split_ws_from true [] s)
  = List.filter Boolean (split_ws_from false [] s).
Proof. destruct s as [|c r]; simpl; [|destruct (is_js_whitespace c)]; reflexivity. Qed.

Lemma split_ws_from_app (t1 t2 : jsstring) (w : N) :
  is_js_whitespace w = true ->
  forall b cur, (b = true -> cur = []) ->
    List.filter Boolean (split_ws_from b cur (t1 ++ w :: t2))
    = List.filter Boolean (split_ws_from b cur t1)
      ++ List.filter Boolean (split_ws_from true [] t2).
Proof.
  intros Hw. induction t1 as [|c t IH]; intros b cur Hb.
  - simpl. rewrite Hw. destruct b.
    + rewrite (Hb eq_refl). reflexivity.
    + cbn [List.filter]. destruct (Boolean cur); reflexivity.
  - simpl. destruct (is_js_whitespace c).
    + destruct b.
      * apply IH. reflexivity.
      * cbn [List.filter]. rewrite (IH true [] (fun _ => eq_refl)).
        destruct (Boolean cur); reflexivity.
    + apply IH. discriminate.
Qed.

Lemma parts_app (t1 t2 : jsstring) (w : N) :
  is_js_whitespace w = true -> parts (t1 ++ w :: t2) = parts t1 ++ parts t2.
Proof.
  intros Hw. rewrite !parts_split_ws. unfold split_ws.
  rewrite (split_ws_from_app t1 t2 w Hw false []) by discriminate.
  rewrite split_ws_from_leading_separator. reflexivity.
Qed.

Lemma foldl_Set_add_prefix (l s : list jsstring) : s `prefix_of` foldl Set_add s l.
Proof.
  revert s. induction l as [|x l IH]; intros s; [reflexivity|].
  simpl. etransitivity; [|apply IH]. unfold Set_add.
  destruct (bool_decide _); [reflexivity | apply prefix_app_r; reflexivity].
Qed.

(** X19. Parsing two texts put together with a whitespace code unit
    between them gives the URLs of the first text, in their order,
    followed by those of the second text that the first did not give: the
    result of the first text is a prefix of the result, and a URL is in
    the result exactly when one of the two texts gives it. *)
Theorem parseUrlsFromText_app
    (new_URL : jsstring -> completion URL) (t1 t2 : jsstring) (w : N)
    (separator : is_js_whitespace w = true) :
  exists out1 out2 urls1 urls2 urls : list jsstring,
    collected new_URL t1 = Normal out1
    /\ collected new_URL t2 = Normal out2
    /\ parseUrlsFromText new_URL t1 = Normal urls1
    /\ parseUrlsFromText new_URL t2 = Normal urls2
    /\ parseUrlsFromText new_URL (t1 ++ w :: t2) = Normal urls
    /\ urls = new_Set (out1 ++ out2)
    /\ urls1 `prefix_of` urls
    /\ forall x, x ∈ urls <-> x ∈ urls1 \/ x ∈ urls2.
Proof.
  exists (omap (accepted new_URL) (parts t1)), (omap (accepted new_URL) (parts t2)).
  do 3 eexists.
  split; [apply collected_eq|]. split; [apply collected_eq|].
  split; [apply parseUrlsFromText_eq|]. split; [apply parseUrlsFromText_eq|].
  split; [apply parseUrlsFromText_eq|].
  rewrite (parts_app t1 t2 w separator), omap_app.
  split; [reflexivity|]. split.
  - unfold new_Set. rewrite foldl_app. apply foldl_Set_add_prefix.
  - intros x. rewrite !new_Set_elem_of, elem_of_app. reflexivity.
Qed.

Lemma parseUrlsFromText_app_witness :
  let t1 := js "http://a.example/x ftp://b.example/y" in
  let t2 := js "https://c.example/z HTTP://a.example/x" in
  is_js_whitespace 10 = true
  /\ parseUrlsFromText sample_new_URL (t1 ++ 10%N :: t2)
     = Normal [js "http://a.example/x"; js "https://c.example/z"]
  /\ exists out1 out2 urls1 urls2 urls : list jsstring,
       collected sample_new_URL t1 = Normal out1
       /\ collected sample_new_URL t2 = Normal out2
       /\ parseUrlsFromText sample_new_URL t1 = Normal urls1
       /\ parseUrlsFromText sample_new_URL t2 = Normal urls2
       /\ parseUrlsFromText sample_new_URL (t1 ++ 10%N :: t2) = Normal urls
       /\ urls = new_Set (out1 ++ out2)
       /\ urls1 `prefix_of` urls
       /\ forall x, x ∈ urls <-> x ∈ urls1 \/ x ∈ urls2.
Proof.
  intros t1 t2. split; [reflexivity|]. split; [vm_compute; reflexivity|].
  exact (parseUrlsFromText_app sample_new_URL t1 t2 10%N eq_refl).
Defined.

(** X20. A progress update that arrives after a refresh is what the row
    shows, whatever the status of the stored record: the row takes its
    status and its byte count from the last update of the batch for its
    id, until the next refresh. *)
Theorem late_update_is_displayed
    (lst : list DownloadRecord) (st : AppState)
    (batch : list DownloadProgressUpdate) (d : DownloadRecord)
    (u : DownloadProgressUpdate)
    (last_update : last_for (id d) batch = Some u) :
  let st' := on_progress_batch (Some batch) (refreshDownloads lst st) in
  downloads st' = lst
  /\ progressById st' !! id d = Some u
  /\ row_status (row_of (progressById st') d) = p_status u
  /\ row_bytes (row_of (progressById st') d) = p_bytes_downloaded u.
Proof.
  intros st'.
  assert (H : progressById st' !! id d = Some u).
  { unfold st'. rewrite on_progress_batch_lookup.
    change (default [] (Some batch)) with batch. rewrite last_update. reflexivity. }
  split; [unfold st'; rewrite on_progress_batch_downloads; reflexivity|].
  split; [exact H|].
  unfold row_status, row_of; cbn [row_p row_d row_bytes]. rewrite H. auto.
Qed.

Lemma late_update_is_displayed_witness :
  let d1 := sample_download (js "d1") COMPLETED in
  let u := sample_update (js "d1") DOWNLOADING 990 in
  let st := {| downloads := []; progressById := ∅ |} in
  let st' := on_progress_batch (Some [u]) (refreshDownloads [d1] st) in
  last_for (id d1) [u] = Some u
  /\ status d1 = COMPLETED
  /\ row_status (row_of (progressById st') d1) = DOWNLOADING.
Proof.
  intros d1 u st st'.
  assert (H : last_for (id d1) [u] = Some u) by reflexivity.
  split; [exact H|]. split; [reflexivity|].
  exact (proj1 (proj2 (proj2 (late_update_is_displayed [d1] st [u] d1 u H)))).
Defined.
